(** * EGAP event pipeline: ingress gateway and orchestrator worker

    A shallow embedding of the two handlers of the event pipeline,

    - [handleMessage] of the orchestrator worker
      (services/orchestrator/src/index.ts), and
    - the [POST /webhook] handler of the ingress gateway,

    together with the part of their environment they talk to: the
    relational store behind the Prisma client, the Pub/Sub topic and
    subscription, the wall clock and the identifier generator.

    The handlers are asynchronous JavaScript functions.  Each one is
    embedded as a computation in a state-and-exception monad over the
    state of the world; every [await] is a sequencing point, [throw] is the
    exceptional outcome and [try]/[catch] is a combinator.  One handler
    invocation is run without interleaving with another one, and what it
    writes to the console or to the logger is left out.

    The store, the topic, the clock and the identifier generator are not
    part of the handlers: their answers come from an environment [Env],
    over which every statement below is quantified.  In particular any
    call to the store may be refused, which is how the [catch] blocks are
    reached. *)

From Stdlib Require Import PrimFloat ZArith Lia DecimalString.
From stdpp Require Import base option list strings gmap.

Set Warnings "-register-all,-inexact-float".
Local Open Scope Z_scope.
Local Open Scope string_scope.
Local Open Scope list_scope.

(** ** JavaScript values *)

(** The values the handlers manipulate: what [JSON.parse] returns, plus
    [undefined], which is what reading an absent property gives.  Objects
    keep their properties in insertion order. *)
Inductive Value : Type :=
  | VUndefined
  | VNull
  | VBool (b : bool)
  | VNum (n : float)
  | VStr (s : string)
  | VArr (items : list Value)
  | VObj (props : list (string * Value)).

(** ECMAScript [ToBoolean]: the test behind [!v], [v || w] and [if (v)]. *)
Definition truthy (v : Value) : bool :=
  match v with
  | VUndefined | VNull => false
  | VBool b => b
  | VNum n => negb (PrimFloat.eqb n 0%float) && negb (PrimFloat.is_nan n)
  | VStr s => negb (String.eqb s "")
  | VArr _ | VObj _ => true
  end.

(** The [typeof] operator. *)
Definition typeof (v : Value) : string :=
  match v with
  | VUndefined => "undefined"
  | VNull | VArr _ | VObj _ => "object"
  | VBool _ => "boolean"
  | VNum _ => "number"
  | VStr _ => "string"
  end.

(** [a || b] on values that are already evaluated. *)
Definition or_else (a b : Value) : Value := if truthy a then a else b.

(** [a ?? b]. *)
Definition nullish_else (a b : Value) : Value :=
  match a with
  | VUndefined | VNull => b
  | _ => a
  end.

(** [v === "s"] against a string literal. *)
Definition is_string (s : string) (v : Value) : bool :=
  match v with
  | VStr s' => String.eqb s' s
  | _ => false
  end.

Fixpoint lookup_prop (k : string) (props : list (string * Value)) : Value :=
  match props with
  | [] => VUndefined
  | (k', v) :: rest => if String.eqb k' k then v else lookup_prop k rest
  end.

(** ** Errors and outcomes *)

Inductive Error : Type :=
  | SyntaxError              (* JSON.parse on malformed text *)
  | TypeError                (* property read on null or undefined *)
  | PrismaValidationError    (* an argument of the wrong type for a column *)
  | PrismaUniqueConstraint   (* insert with an id that is already taken *)
  | PrismaRecordNotFound     (* update of a row that does not exist *)
  | PrismaUnavailable        (* the store rejected or never answered the call *)
  | PublishError.            (* the topic refused the message *)

Inductive Outcome (A : Type) : Type :=
  | Ok (a : A)
  | Throw (e : Error).
Arguments Ok {A} a.
Arguments Throw {A} e.

Definition is_ok {A} (o : Outcome A) : bool :=
  match o with Ok _ => true | Throw _ => false end.

(** The property read [v.k] for a name [k] that is neither an index nor
    [length] nor a member of a prototype (the handlers read [traceId],
    [type], [taskId], [agentId], [source] and [payload] only): a
    [TypeError] on [null] and [undefined], the own property of an object,
    [undefined] on everything else. *)
Definition get_prop (k : string) (v : Value) : Outcome Value :=
  match v with
  | VUndefined | VNull => Throw TypeError
  | VObj props => Ok (lookup_prop k props)
  | VBool _ | VNum _ | VStr _ | VArr _ => Ok VUndefined
  end.

(** ** The computation monad *)

Definition M (S A : Type) : Type := S -> Outcome A * S.

Definition ret {S A} (a : A) : M S A := fun s => (Ok a, s).

Definition throw {S A} (e : Error) : M S A := fun s => (Throw e, s).

Definition bind {S A B} (c : M S A) (k : A -> M S B) : M S B :=
  fun s =>
    match c s with
    | (Ok a, s') => k a s'
    | (Throw e, s') => (Throw e, s')
    end.

Declare Scope js_scope.
Delimit Scope js_scope with js.
Notation "x <- c ;; k" := (bind c (fun x => k))
  (at level 100, c at next level, right associativity) : js_scope.
Notation "c ;;; k" := (bind c (fun _ => k))
  (at level 100, right associativity) : js_scope.
Local Open Scope js_scope.

(** A pure step that may throw. *)
Definition lift_outcome {S A} (o : Outcome A) : M S A := fun s => (o, s).

(** [try { body } catch (err) { handler }]. *)
Definition try_catch {S A} (body : M S A) (handler : Error -> M S A) : M S A :=
  fun s =>
    match body s with
    | (Ok a, s') => (Ok a, s')
    | (Throw e, s') => handler e s'
    end.

(** [promise.catch(() => { })]: a rejection is dropped. *)
Definition swallow {S A} (c : M S A) : M S unit :=
  fun s =>
    match c s with
    | (Ok _, s') => (Ok tt, s')
    | (Throw _, s') => (Ok tt, s')
    end.

(** [if (c) { body }] with no [else]. *)
Definition when {S} (c : bool) (body : M S unit) : M S unit :=
  if c then body else ret tt.

(** ** The persisted entities *)

Inductive SpanStatus : Type := OK | ERROR.

(** Modelled from the spec: the Prisma schema (prisma/schema.prisma) is not
    among the sources, so the columns are those of section 3 of the
    specification, with the types the handlers and the seed scripts pass.
    The columns the store fills on its own ([createdAt], [timestamp]) are
    left out: no handler reads or writes them.  A column the handler may
    leave unset is an [option]. *)
Record TraceSpan : Type := {
  span_id : string;
  span_traceId : string;
  span_parentId : option string;
  span_service : string;
  span_operation : string;
  span_durationMs : option Z;
  span_status : option SpanStatus;
  span_metadata : list (string * Value)
}.

Record Agent : Type := {
  agent_id : string;
  agent_name : string;
  agent_role : string;
  agent_goal : string;
  agent_systemPrompt : string;
  agent_tools : list string
}.

Record Task : Type := {
  task_id : string;
  task_description : string;
  task_inputPayload : Value;
  task_agentId : string
}.

Record UsageLog : Type := {
  log_id : string;
  log_agentId : string;
  log_action : string;
  log_tokens : Z;
  log_costUsd : float;
  log_metadata : list (string * Value)
}.

(** ** The queue *)

(** A message as the topic holds it after [publishMessage]. *)
Record Published : Type := {
  pub_messageId : string;
  pub_data : string;
  pub_attributes : gmap string string
}.

(** A message as the subscription delivers it to [handleMessage]. *)
Record Message : Type := {
  msg_id : string;
  msg_data : string;
  msg_attributes : option (gmap string string)
}.

(** [auditCounters] of the gateway process. *)
Record AuditCounters : Type := {
  totalReceived : nat;
  totalPublished : nat;
  totalFailed : nat;
  startedAt : string
}.

(** ** The environment *)

(** What the handlers get from outside and cannot decide themselves: the
    library functions on text, the process configuration, and one oracle
    per source of non-determinism, each indexed by the number of calls made
    so far. *)
Record Env : Type := {
  JSON_parse : string -> option Value;      (* [None]: SyntaxError *)
  JSON_stringify : Value -> string;
  Number_toString : float -> string;
  toISOString : Z -> string;
  where_String : Value -> option (string -> bool);
                                            (* a filter object on a String
                                               column: the strings it
                                               selects; [None]: refused *)
  TOPIC_NAME : string;
  clock : nat -> Z;                         (* the k-th reading of the clock *)
  uuids : nat -> string;                    (* the k-th identifier drawn *)
  store_down : nat -> bool;                 (* the k-th store call is refused *)
  publish_result : nat -> option string     (* the k-th publish: its message id *)
}.

(** The state of the world between two steps of a handler. *)
Record World : Type := {
  spans : list TraceSpan;
  tasks : list Task;
  usageLogs : list UsageLog;
  agents : list Agent;
  topic : list Published;
  acked : list string;
  nacked : list string;
  auditCounters : AuditCounters;
  clock_reads : nat;
  ids_drawn : nat;
  store_calls : nat;
  publish_calls : nat
}.

Definition with_spans (v : list TraceSpan) (w : World) : World :=
  {| spans := v; tasks := tasks w; usageLogs := usageLogs w;
     agents := agents w; topic := topic w; acked := acked w;
     nacked := nacked w; auditCounters := auditCounters w;
     clock_reads := clock_reads w; ids_drawn := ids_drawn w;
     store_calls := store_calls w; publish_calls := publish_calls w |}.

Definition with_tasks (v : list Task) (w : World) : World :=
  {| spans := spans w; tasks := v; usageLogs := usageLogs w;
     agents := agents w; topic := topic w; acked := acked w;
     nacked := nacked w; auditCounters := auditCounters w;
     clock_reads := clock_reads w; ids_drawn := ids_drawn w;
     store_calls := store_calls w; publish_calls := publish_calls w |}.

Definition with_usageLogs (v : list UsageLog) (w : World) : World :=
  {| spans := spans w; tasks := tasks w; usageLogs := v;
     agents := agents w; topic := topic w; acked := acked w;
     nacked := nacked w; auditCounters := auditCounters w;
     clock_reads := clock_reads w; ids_drawn := ids_drawn w;
     store_calls := store_calls w; publish_calls := publish_calls w |}.

Definition with_topic (v : list Published) (w : World) : World :=
  {| spans := spans w; tasks := tasks w; usageLogs := usageLogs w;
     agents := agents w; topic := v; acked := acked w;
     nacked := nacked w; auditCounters := auditCounters w;
     clock_reads := clock_reads w; ids_drawn := ids_drawn w;
     store_calls := store_calls w; publish_calls := publish_calls w |}.

Definition with_acked (v : list string) (w : World) : World :=
  {| spans := spans w; tasks := tasks w; usageLogs := usageLogs w;
     agents := agents w; topic := topic w; acked := v;
     nacked := nacked w; auditCounters := auditCounters w;
     clock_reads := clock_reads w; ids_drawn := ids_drawn w;
     store_calls := store_calls w; publish_calls := publish_calls w |}.

Definition with_auditCounters (v : AuditCounters) (w : World) : World :=
  {| spans := spans w; tasks := tasks w; usageLogs := usageLogs w;
     agents := agents w; topic := topic w; acked := acked w;
     nacked := nacked w; auditCounters := v;
     clock_reads := clock_reads w; ids_drawn := ids_drawn w;
     store_calls := store_calls w; publish_calls := publish_calls w |}.

Definition tick_clock (w : World) : World :=
  {| spans := spans w; tasks := tasks w; usageLogs := usageLogs w;
     agents := agents w; topic := topic w; acked := acked w;
     nacked := nacked w; auditCounters := auditCounters w;
     clock_reads := S (clock_reads w); ids_drawn := ids_drawn w;
     store_calls := store_calls w; publish_calls := publish_calls w |}.

Definition tick_ids (w : World) : World :=
  {| spans := spans w; tasks := tasks w; usageLogs := usageLogs w;
     agents := agents w; topic := topic w; acked := acked w;
     nacked := nacked w; auditCounters := auditCounters w;
     clock_reads := clock_reads w; ids_drawn := S (ids_drawn w);
     store_calls := store_calls w; publish_calls := publish_calls w |}.

Definition tick_store (w : World) : World :=
  {| spans := spans w; tasks := tasks w; usageLogs := usageLogs w;
     agents := agents w; topic := topic w; acked := acked w;
     nacked := nacked w; auditCounters := auditCounters w;
     clock_reads := clock_reads w; ids_drawn := ids_drawn w;
     store_calls := S (store_calls w); publish_calls := publish_calls w |}.

Definition tick_publish (w : World) : World :=
  {| spans := spans w; tasks := tasks w; usageLogs := usageLogs w;
     agents := agents w; topic := topic w; acked := acked w;
     nacked := nacked w; auditCounters := auditCounters w;
     clock_reads := clock_reads w; ids_drawn := ids_drawn w;
     store_calls := store_calls w; publish_calls := S (publish_calls w) |}.

(** ** Primitive operations on the world *)

Section Primitives.
Variable env : Env.

(** [Date.now()]. *)
Definition Date_now : M World Z :=
  fun w => (Ok (clock env (clock_reads w)), tick_clock w).

(** [randomUUID()], also the default of an [id] column. *)
Definition randomUUID : M World string :=
  fun w => (Ok (uuids env (ids_drawn w)), tick_ids w).

(** [JSON.parse(text)]. *)
Definition parse (text : string) : M World Value :=
  match JSON_parse env text with
  | Some v => ret v
  | None => throw SyntaxError
  end.

(** The string a template literal puts in place of [${v}]. *)
Fixpoint ToString (v : Value) : string :=
  match v with
  | VUndefined => "undefined"
  | VNull => "null"
  | VBool true => "true"
  | VBool false => "false"
  | VNum n => Number_toString env n
  | VStr s => s
  | VArr items =>
      String.concat ","
        (map (fun x => match x with
                       | VUndefined | VNull => ""
                       | _ => ToString x
                       end) items)
  | VObj _ => "[object Object]"
  end.

(** One call to the store: the store may refuse it whatever it asks. *)
Definition store_call {A} (op : M World A) : M World A :=
  fun w =>
    if store_down env (store_calls w)
    then (Throw PrismaUnavailable, tick_store w)
    else op (tick_store w).

(** The client checks the type of a [String] column before it calls the
    store. *)
Definition string_column (v : Value) : M World string :=
  match v with
  | VStr s => ret s
  | _ => throw PrismaValidationError
  end.

(** An [id] column: the value the caller gives, or a generated one. *)
Definition id_column (id : option string) : M World string :=
  match id with
  | Some i => ret i
  | None => randomUUID
  end.

(** The store refuses a row whose [id] is taken. *)
Definition insert_span (row : TraceSpan) : M World TraceSpan :=
  fun w =>
    if bool_decide (span_id row ∈ span_id <$> spans w)
    then (Throw PrismaUniqueConstraint, w)
    else (Ok row, with_spans (spans w ++ [row]) w).

Definition insert_task (row : Task) : M World Task :=
  fun w =>
    if bool_decide (task_id row ∈ task_id <$> tasks w)
    then (Throw PrismaUniqueConstraint, w)
    else (Ok row, with_tasks (tasks w ++ [row]) w).

Definition insert_usageLog (row : UsageLog) : M World UsageLog :=
  fun w =>
    if bool_decide (log_id row ∈ log_id <$> usageLogs w)
    then (Throw PrismaUniqueConstraint, w)
    else (Ok row, with_usageLogs (usageLogs w ++ [row]) w).

(** [prisma.traceSpan.create({ data })]. *)
Definition prisma_traceSpan_create
    (id : option string) (traceId : Value) (parentId : option string)
    (service operation : string) (durationMs : option Z)
    (metadata : list (string * Value)) : M World TraceSpan :=
  t <- string_column traceId ;;
  store_call
    (i <- id_column id ;;
     insert_span {| span_id := i; span_traceId := t;
                    span_parentId := parentId; span_service := service;
                    span_operation := operation;
                    span_durationMs := durationMs; span_status := None;
                    span_metadata := metadata |}).

(** The columns [prisma.traceSpan.update] writes: [durationMs] always,
    [status] when the call names it. *)
Definition close_span (status : option SpanStatus) (durationMs : Z)
    (s : TraceSpan) : TraceSpan :=
  {| span_id := span_id s; span_traceId := span_traceId s;
     span_parentId := span_parentId s; span_service := span_service s;
     span_operation := span_operation s;
     span_durationMs := Some durationMs;
     span_status := match status with
                    | Some st => Some st
                    | None => span_status s
                    end;
     span_metadata := span_metadata s |}.

Definition update_span (id : string) (status : option SpanStatus)
    (durationMs : Z) (s : TraceSpan) : TraceSpan :=
  if bool_decide (span_id s = id) then close_span status durationMs s
  else s.

(** The store rejects the update of a row that does not exist. *)
Definition update_spans (id : string) (status : option SpanStatus)
    (durationMs : Z) : M World unit :=
  fun w =>
    if bool_decide (id ∈ span_id <$> spans w)
    then (Ok tt,
          with_spans (update_span id status durationMs <$> spans w) w)
    else (Throw PrismaRecordNotFound, w).

(** [prisma.traceSpan.update({ where: { id }, data })]. *)
Definition prisma_traceSpan_update
    (id : string) (status : option SpanStatus) (durationMs : Z)
    : M World unit :=
  store_call (update_spans id status durationMs).

(** The strings a [where] condition on a [String] column selects.  A
    string selects itself and [undefined] is no condition.  A filter object
    ([{ contains: ... }], [{ in: [...] }], [{ not: ... }], ...), and [null]
    where the column may be null, are read by the client, which refuses
    what is not a filter.  A boolean, a number and an array are refused. *)
Definition string_where (v : Value) : option (string -> bool) :=
  match v with
  | VStr s => Some (fun x => bool_decide (x = s))
  | VUndefined => Some (fun _ => true)
  | VNull | VObj _ => where_String env v
  | VBool _ | VNum _ | VArr _ => None
  end.

(** The first agent whose [role] the condition selects. *)
Definition find_agent (selects : string -> bool) : M World (option Agent) :=
  fun w =>
    (Ok (List.find (fun a => selects (agent_role a)) (agents w)), w).

(** [prisma.agent.findFirst({ where: { role } })]: the client checks the
    condition before it calls the store. *)
Definition prisma_agent_findFirst (role : Value) : M World (option Agent) :=
  match string_where role with
  | Some selects => store_call (find_agent selects)
  | None => throw PrismaValidationError
  end.

(** [prisma.task.create({ data })]. *)
Definition prisma_task_create
    (description : string) (inputPayload : Value) (agentId : string)
    : M World Task :=
  store_call
    (i <- id_column None ;;
     insert_task {| task_id := i; task_description := description;
                    task_inputPayload := inputPayload;
                    task_agentId := agentId |}).

(** [prisma.usageLog.create({ data })]. *)
Definition prisma_usageLog_create
    (agentId : Value) (action : string) (tokens : Z) (costUsd : float)
    (metadata : list (string * Value)) : M World UsageLog :=
  a <- string_column agentId ;;
  store_call
    (i <- id_column None ;;
     insert_usageLog {| log_id := i; log_agentId := a;
                        log_action := action; log_tokens := tokens;
                        log_costUsd := costUsd;
                        log_metadata := metadata |}).

(** [topic.publishMessage({ data, attributes })]. *)
Definition topic_publishMessage
    (data : string) (attributes : gmap string string) : M World string :=
  fun w =>
    match publish_result env (publish_calls w) with
    | Some messageId =>
        (Ok messageId,
         with_topic
           (topic w ++ [{| pub_messageId := messageId; pub_data := data;
                           pub_attributes := attributes |}])
           (tick_publish w))
    | None => (Throw PublishError, tick_publish w)
    end.

(** [message.ack()]. *)
Definition message_ack (message : Message) : M World unit :=
  fun w => (Ok tt, with_acked (acked w ++ [msg_id message]) w).

End Primitives.

(** ** The orchestrator worker *)

(** The activation of [handleMessage]: the world, and the local variable
    [traceId], which the [try] block assigns and the [catch] block reads. *)
Record Frame : Type := {
  world : World;
  traceId : Value
}.

(** A step on the world, taken inside [handleMessage]. *)
Definition io {A} (c : M World A) : M Frame A :=
  fun f =>
    match c (world f) with
    | (r, w) => (r, {| world := w; traceId := traceId f |})
    end.

Definition set_traceId (v : Value) : M Frame unit :=
  fun f => (Ok tt, {| world := world f; traceId := v |}).

Definition get_traceId : M Frame Value :=
  fun f => (Ok (traceId f), f).

Section Worker.
Variable env : Env.

(** [message.attributes?.traceId]. *)
Definition attr_traceId (message : Message) : Value :=
  match msg_attributes message with
  | Some attributes =>
      match attributes !! "traceId" with
      | Some t => VStr t
      | None => VUndefined
      end
  | None => VUndefined
  end.

(** [message.attributes?.traceId || data.traceId || randomUUID()]: the
    operands to the right are evaluated only when those to the left are
    falsy. *)
Definition resolve_traceId (message : Message) (data : Value)
    : M Frame Value :=
  if truthy (attr_traceId message) then ret (attr_traceId message)
  else
    d <- lift_outcome (get_prop "traceId" data) ;;
    if truthy d then ret d
    else u <- io (randomUUID env) ;; ret (VStr u).

(** Lines 59 to 97: the body of [if (data.type === 'RESUME')], which
    ends in [return]. *)
Definition handle_resume
    (message : Message) (data t : Value) (rootStart : Z)
    (rootSpanId : string) : M Frame unit :=
  taskId <- lift_outcome (get_prop "taskId" data) ;;
  agentId <- lift_outcome (get_prop "agentId" data) ;;
  when (truthy agentId)
    (io (prisma_usageLog_create env agentId "resume" 50 0.0005%float
           [("taskId", taskId); ("traceId", t)]) ;;;
     ret tt) ;;;
  now <- io (Date_now env) ;;
  io (prisma_traceSpan_create env None t (Some rootSpanId)
        "orchestrator" "resume_agent" (Some (now - rootStart))
        [("taskId", taskId)]) ;;;
  now <- io (Date_now env) ;;
  io (prisma_traceSpan_update env rootSpanId None (now - rootStart)) ;;;
  io (message_ack message).

(** [data.source || 'unknown'] (line 101). *)
Definition source_of (data : Value) : Outcome Value :=
  match get_prop "source" data with
  | Ok src => Ok (or_else src (VStr "unknown"))
  | Throw e => Throw e
  end.

(** Lines 118 to 157: [if (agent) { ... } else { ... }]. *)
Definition open_task
    (data t source : Value) (rootSpanId : string) (agent : option Agent)
    : M Frame unit :=
  match agent with
  | Some a =>
      taskCreateStart <- io (Date_now env) ;;
      payload <- lift_outcome (get_prop "payload" data) ;;
      task <- io (prisma_task_create env
                    ("Signal from " ++ ToString env source ++ ": "
                       ++ JSON_stringify env (nullish_else payload data))%string
                    data (agent_id a)) ;;
      now <- io (Date_now env) ;;
      io (prisma_traceSpan_create env None t (Some rootSpanId)
            "orchestrator" "task_create" (Some (now - taskCreateStart))
            [("taskId", VStr (task_id task));
             ("agentName", VStr (agent_name a))]) ;;;
      io (prisma_usageLog_create env (VStr (agent_id a)) "tool_call"
            120 0.0012%float
            [("taskId", VStr (task_id task)); ("source", source);
             ("traceId", t)]) ;;;
      ret tt
  | None => ret tt
  end.

(** Lines 99 to 167: a signal that is not a RESUME. *)
Definition handle_signal
    (message : Message) (data t : Value) (rootStart : Z)
    (rootSpanId : string) : M Frame unit :=
  agentLookupStart <- io (Date_now env) ;;
  source <- lift_outcome (source_of data) ;;
  agent <- io (prisma_agent_findFirst env source) ;;
  now <- io (Date_now env) ;;
  io (prisma_traceSpan_create env None t (Some rootSpanId)
        "orchestrator" "agent_lookup" (Some (now - agentLookupStart))
        [("source", source);
         ("found", VBool (match agent with
                          | Some _ => true
                          | None => false
                          end))]) ;;;
  open_task data t source rootSpanId agent ;;;
  now <- io (Date_now env) ;;
  io (prisma_traceSpan_update env rootSpanId None (now - rootStart)) ;;;
  io (message_ack message).

(** Lines 47 to 167: what the [try] block does once [traceId] is
    assigned. *)
Definition process
    (message : Message) (data t : Value) (rootStart : Z)
    (rootSpanId : string) : M Frame unit :=
  io (prisma_traceSpan_create env (Some rootSpanId) t None
        "orchestrator" "process_message" None
        [("messageId", VStr (msg_id message))]) ;;;
  type <- lift_outcome (get_prop "type" data) ;;
  if is_string "RESUME" type
  then handle_resume message data t rootStart rootSpanId
  else handle_signal message data t rootStart rootSpanId.

(** The [try] block of [handleMessage] (lines 31 to 167).  Writing to the
    console is not modelled; the second evaluation of
    [message.attributes?.traceId || data.traceId] on line 41 only chooses
    between two log lines and cannot throw where the first one did not. *)
Definition handleMessage_try
    (message : Message) (rootStart : Z) (rootSpanId : string)
    : M Frame unit :=
  data <- io (parse env (msg_data message)) ;;
  t <- resolve_traceId message data ;;
  set_traceId t ;;;
  process message data t rootStart rootSpanId.

(** The [catch] block of [handleMessage] (lines 168 to 180). *)
Definition handleMessage_catch
    (message : Message) (rootStart : Z) (rootSpanId : string)
    (err : Error) : M Frame unit :=
  t <- get_traceId ;;
  when (truthy t)
    (now <- io (Date_now env) ;;
     swallow (io (prisma_traceSpan_update env rootSpanId (Some ERROR)
                    (now - rootStart)))) ;;;
  io (message_ack message).

Definition handleMessage_frame (message : Message) : M Frame unit :=
  rootStart <- io (Date_now env) ;;
  set_traceId (VStr "") ;;;
  rootSpanId <- io (randomUUID env) ;;
  try_catch (handleMessage_try message rootStart rootSpanId)
    (handleMessage_catch message rootStart rootSpanId).

(** [handleMessage(message)], run on a world. *)
Definition handleMessage (message : Message) : M World unit :=
  fun w =>
    match handleMessage_frame message
            {| world := w; traceId := VUndefined |} with
    | (r, f) => (r, world f)
    end.

(** The instant [rootStart] and the identifier [rootSpanId] of the
    invocation that starts in world [w]. *)
Definition rootStart_of (w : World) : Z := clock env (clock_reads w).
Definition rootSpanId_of (w : World) : string := uuids env (ids_drawn w).

(** The activation when control reaches [try]. *)
Definition enter (w : World) : Frame :=
  {| world := tick_ids (tick_clock w); traceId := VStr "" |}.

(** The [try] block of the invocation that starts in world [w]: how it
    ends, and in which state. *)
Definition try_run (message : Message) (w : World) : Outcome unit * Frame :=
  handleMessage_try message (rootStart_of w) (rootSpanId_of w) (enter w).

(** The handler ran to completion: its [try] block raised nothing. *)
Definition completes (message : Message) (w : World) : bool :=
  is_ok (fst (try_run message w)).

End Worker.

(** ** The ingress gateway *)

(** What [reply.status(code).send(body)] hands back to the caller. *)
Record Reply : Type := {
  reply_status : Z;
  reply_body : Value
}.

Definition bump_totalReceived (c : AuditCounters) : AuditCounters :=
  {| totalReceived := S (totalReceived c);
     totalPublished := totalPublished c;
     totalFailed := totalFailed c; startedAt := startedAt c |}.

Definition bump_totalPublished (c : AuditCounters) : AuditCounters :=
  {| totalReceived := totalReceived c;
     totalPublished := S (totalPublished c);
     totalFailed := totalFailed c; startedAt := startedAt c |}.

Definition bump_totalFailed (c : AuditCounters) : AuditCounters :=
  {| totalReceived := totalReceived c;
     totalPublished := totalPublished c;
     totalFailed := S (totalFailed c); startedAt := startedAt c |}.

(** [auditCounters.field++]. *)
Definition count (bump : AuditCounters -> AuditCounters) : M World unit :=
  fun w => (Ok tt, with_auditCounters (bump (auditCounters w)) w).

Section Gateway.
Variable env : Env.

(** [!body || typeof body !== 'object'] (line 237). *)
Definition rejects (body : Value) : bool :=
  negb (truthy body) || negb (String.eqb (typeof body) "object").

(** The object literal of lines 263 to 268. *)
Definition webhook_message
    (source payload : Value) (traceId : string) (receivedAt : string)
    : Value :=
  VObj [("source", source); ("payload", payload);
        ("traceId", VStr traceId); ("receivedAt", VStr receivedAt)].

(** The handler of [POST /webhook] (lines 232 to 320), applied to
    [request.body].  A [Throw] outcome is a rejection of the handler's
    promise, which the framework answers on its own. *)
Definition webhook (body : Value) : M World Reply :=
  rootStart <- Date_now env ;;
  if rejects body then
    ret {| reply_status := 400;
           reply_body :=
             VObj [("error", VStr "Request body must be a JSON object")] |}
  else
    count bump_totalReceived ;;;
    traceId <- randomUUID env ;;
    src <- lift_outcome (get_prop "source" body) ;;
    let source := or_else src (VStr "unknown") in
    pl <- lift_outcome (get_prop "payload" body) ;;
    let payload := or_else pl body in
    rootSpanId <- randomUUID env ;;
    prisma_traceSpan_create env (Some rootSpanId) (VStr traceId) None
      "ingress" "webhook_receive" None [("source", source)] ;;;
    receivedAt <- Date_now env ;;
    let message :=
      webhook_message source payload traceId (toISOString env receivedAt) in
    let dataBuffer := JSON_stringify env message in
    try_catch
      (pubsubStart <- Date_now env ;;
       messageId <- topic_publishMessage env dataBuffer
                      {[ "traceId" := traceId ]} ;;
       count bump_totalPublished ;;;
       now <- Date_now env ;;
       prisma_traceSpan_create env None (VStr traceId) (Some rootSpanId)
         "ingress" "pubsub_publish" (Some (now - pubsubStart))
         [("messageId", VStr messageId);
          ("topic", VStr (TOPIC_NAME env))] ;;;
       now <- Date_now env ;;
       prisma_traceSpan_update env rootSpanId None (now - rootStart) ;;;
       ret {| reply_status := 200;
              reply_body :=
                VObj [("status", VStr "queued");
                      ("messageId", VStr messageId);
                      ("traceId", VStr traceId)] |})
      (fun err =>
         count bump_totalFailed ;;;
         now <- Date_now env ;;
         swallow (prisma_traceSpan_update env rootSpanId (Some ERROR)
                    (now - rootStart)) ;;;
         ret {| reply_status := 500;
                reply_body :=
                  VObj [("error", VStr "Failed to queue message")] |}).

End Gateway.


(** ** What a run leaves behind *)

Section Observations.
Variable env : Env.

(** The world after [handleMessage(message)] has run from [w]. *)
Definition delivered (message : Message) (w : World) : World :=
  snd (handleMessage env message w).

(** The value the [try] block assigns to [traceId], when it gets that
    far. *)
Definition resolved (message : Message) (data : Value) (w : World)
    : Outcome Value :=
  fst (resolve_traceId env message data (enter w)).

(** The columns of a span that no update touches: its [id], its
    [traceId] and its [parentId]. *)
Definition span_link (s : TraceSpan) : string * string * option string :=
  (span_id s, span_traceId s, span_parentId s).

Definition links (w : World) : list (string * string * option string) :=
  span_link <$> spans w.

(** A span of trace [t] whose parent is the span [rootSpanId]. *)
Definition child_of (rootSpanId t : string)
    (l : string * string * option string) : Prop :=
  l.1.2 = t /\ l.2 = Some rootSpanId.

(** A block that runs once the root span exists inserts children of it
    only. *)
Definition children_post (rootSpanId t : string) (w w' : World) : Prop :=
  exists children,
    links w' = links w ++ children /\
    Forall (child_of rootSpanId t) children.

(** What a run that resolved [traceId] to [t] inserts: nothing, or the
    root span of trace [t] and then children of it. *)
Definition trace_post (rootSpanId : string) (t : Value) (w w' : World)
    : Prop :=
  links w' = links w \/
  exists ts children,
    t = VStr ts /\
    links w' = links w ++ (rootSpanId, ts, None) :: children /\
    Forall (child_of rootSpanId ts) children.

(** The spans the delivery of [message] in world [w] inserts. *)
Definition delivery_trace (message : Message) (w w' : World) : Prop :=
  match JSON_parse env (msg_data message) with
  | Some data =>
      match resolved message data w with
      | Ok t => trace_post (rootSpanId_of env w) t w w'
      | Throw _ => links w' = links w
      end
  | None => links w' = links w
  end.

(** The row [handle_resume] appends to the usage ledger. *)
Definition resume_log (a i : string) (taskId t : Value) : UsageLog :=
  {| log_id := i; log_agentId := a; log_action := "resume";
     log_tokens := 50; log_costUsd := 0.0005%float;
     log_metadata := [("taskId", taskId); ("traceId", t)] |}.

(** The rows [open_task] creates for agent [a]. *)
Definition signal_task (i : string) (source data payload : Value)
    (a : Agent) : Task :=
  {| task_id := i;
     task_description :=
       ("Signal from " ++ ToString env source ++ ": "
          ++ JSON_stringify env (nullish_else payload data))%string;
     task_inputPayload := data;
     task_agentId := agent_id a |}.

Definition signal_log (j i : string) (source t : Value) (a : Agent)
    : UsageLog :=
  {| log_id := j; log_agentId := agent_id a; log_action := "tool_call";
     log_tokens := 120; log_costUsd := 0.0012%float;
     log_metadata :=
       [("taskId", VStr i); ("source", source); ("traceId", t)] |}.

(** The first agent whose [role] is [role], as [findFirst] returns it. *)
Definition agent_for (role : string) (w : World) : option Agent :=
  List.find (fun a => bool_decide (agent_role a = role)) (agents w).

(** The agent [findFirst] returns for the condition [source]: the first
    one whose [role] the condition selects. *)
Definition agent_where (source : Value) (w : World) : option Agent :=
  match string_where env source with
  | Some selects => List.find (fun a => selects (agent_role a)) (agents w)
  | None => None
  end.


(** What every block of the worker leaves alone, and the
    acknowledgement: sent if the block returns, not sent if it throws. *)
Definition frame_post (message : Message) (w : World) (acks : bool)
    (w' : World) : Prop :=
  nacked w' = nacked w /\ agents w' = agents w /\
  topic w' = topic w /\ auditCounters w' = auditCounters w /\
  (clock_reads w <= clock_reads w')%nat /\
  acked w' = if acks then acked w ++ [msg_id message] else acked w.

(** The ledger after a RESUME signal: no task is touched; one usage row
    at most, and only for a truthy [agentId]. *)
Definition resume_post (data t : Value) (w : World) (ok : bool)
    (w' : World) : Prop :=
  tasks w' = tasks w /\
  match get_prop "agentId" data with
  | Ok agentId =>
      if truthy agentId
      then (usageLogs w' = usageLogs w /\ ok = false) \/
           (exists a i taskId,
              agentId = VStr a /\ get_prop "taskId" data = Ok taskId /\
              usageLogs w' = usageLogs w ++ [resume_log a i taskId t])
      else usageLogs w' = usageLogs w
  | Throw _ => usageLogs w' = usageLogs w
  end.

(** The ledger after the task block has returned. *)
Definition task_post (data t source : Value) (agent : option Agent)
    (w w' : World) : Prop :=
  match agent with
  | Some a =>
      exists i j payload,
        get_prop "payload" data = Ok payload /\
        (i ∉ task_id <$> tasks w) /\
        tasks w' = tasks w ++ [signal_task i source data payload a] /\
        usageLogs w' = usageLogs w ++ [signal_log j i source t a]
  | None => tasks w' = tasks w /\ usageLogs w' = usageLogs w
  end.

(** The ledger after a signal that is not a RESUME has been handled
    without an exception. *)
Definition signal_post (data t : Value) (w w' : World) : Prop :=
  exists source,
    source_of data = Ok source /\
    is_Some (string_where env source) /\
    task_post data t source (agent_where source w) w w'.

(** The ledger after [process]: by the kind of signal. *)
Definition ledger_post (data t : Value) (w : World) (ok : bool)
    (w' : World) : Prop :=
  match get_prop "type" data with
  | Ok type =>
      if is_string "RESUME" type then resume_post data t w ok w'
      else ok = true -> signal_post data t w w'
  | Throw _ =>
      ok = false /\ tasks w' = tasks w /\ usageLogs w' = usageLogs w
  end.

(** The ledger after the [try] block, started in world [w] with
    [traceId] still to be resolved from frame [f]. *)
Definition try_post (message : Message) (f : Frame) (ok : bool)
    (f' : Frame) : Prop :=
  match JSON_parse env (msg_data message) with
  | Some data =>
      match fst (resolve_traceId env message data f) with
      | Ok t =>
          traceId f' = t /\
          ledger_post data t (world f) ok (world f')
      | Throw _ =>
          ok = false /\ traceId f' = traceId f /\
          tasks (world f') = tasks (world f) /\
          usageLogs (world f') = usageLogs (world f)
      end
  | None =>
      ok = false /\ traceId f' = traceId f /\
      tasks (world f') = tasks (world f) /\
      usageLogs (world f') = usageLogs (world f)
  end.

(** The ledger after the delivery of [message] in world [w]. *)
Definition delivery_post (message : Message) (w : World) (ok : bool)
    (w' : World) : Prop :=
  match JSON_parse env (msg_data message) with
  | Some data =>
      match resolved message data w with
      | Ok t => ledger_post data t w ok w'
      | Throw _ =>
          ok = false /\ tasks w' = tasks w /\ usageLogs w' = usageLogs w
      end
  | None => ok = false /\ tasks w' = tasks w /\ usageLogs w' = usageLogs w
  end.

(** The wall clock never runs backwards. *)
Definition clock_monotone : Prop :=
  forall i j : nat, (i <= j)%nat -> clock env i <= clock env j.

(** A child span is inserted after its parent: every span of [after]
    that is not in [before] and names a parent has that parent earlier in
    [after], inserted by the same run, in the same trace. *)
Definition parents_first (before after : list TraceSpan) : Prop :=
  forall i child p,
    after !! i = Some child ->
    (length before <= i)%nat ->
    span_parentId child = Some p ->
    exists j parent,
      (length before <= j < i)%nat /\
      after !! j = Some parent /\
      span_id parent = p /\
      span_traceId parent = span_traceId child.

(** [randomUUID()] never returns the empty string. *)
Definition uuids_nonempty : Prop := forall k, uuids env k <> EmptyString.

(** The root span of the trace the gateway opens for the request that
    arrives in world [w]: its id is the second identifier drawn. *)
Definition webhook_rootSpanId (w : World) : string :=
  uuids env (S (ids_drawn w)).

End Observations.

(** The [source] field as the specification words it: [body.source] when
    that is a truthy string, the literal ["unknown"] otherwise.  The code
    has [or_else src (VStr "unknown")] instead. *)
Definition stated_source (src : Value) : Value :=
  match src with
  | VStr s => if truthy (VStr s) then VStr s else VStr "unknown"
  | _ => VStr "unknown"
  end.

(** ** A concrete environment *)

Module Sample.

Definition quote : string := String (Ascii.ascii_of_nat 34) EmptyString.

Definition digits (k : nat) : string :=
  NilZero.string_of_uint (N.to_uint (N.of_nat k)).

(** A serialiser for the documents below: strings with nothing to escape,
    and no numbers. *)
Fixpoint stringify (v : Value) : string :=
  match v with
  | VUndefined | VNull => "null"
  | VBool true => "true"
  | VBool false => "false"
  | VNum _ => "0"
  | VStr s => (quote ++ s ++ quote)%string
  | VArr items =>
      ("[" ++ String.concat "," (map stringify items) ++ "]")%string
  | VObj props =>
      ("{" ++ String.concat ","
                (map (fun kv => (quote ++ fst kv ++ quote ++ ":"
                                   ++ stringify (snd kv))%string) props)
           ++ "}")%string
  end.

(** The webhook of the scenario of section 8 of the specification. *)
Definition github_body : Value :=
  VObj [("source", VStr "github");
        ("payload", VObj [("msg", VStr "commit X")])].

(** The message the gateway publishes for it. *)
Definition github_signal : Value :=
  VObj [("source", VStr "github");
        ("payload", VObj [("msg", VStr "commit X")]);
        ("traceId", VStr "uuid-0");
        ("receivedAt", VStr "T1007")].

Definition resume_signal : Value :=
  VObj [("type", VStr "RESUME"); ("taskId", VStr "task-1");
        ("agentId", VStr "agent-1")].

(** The message the gateway publishes for the webhook
    [{ source: { contains: "" } }], whose [source] is a filter object and
    whose [payload], for want of one, is the whole body. *)
Definition filter_signal : Value :=
  VObj [("source", VObj [("contains", VStr "")]);
        ("payload", VObj [("source", VObj [("contains", VStr "")])]);
        ("traceId", VStr "uuid-0");
        ("receivedAt", VStr "T1007")].

(** A RESUME whose [agentId] is truthy and not a string. *)
Definition resume_untyped : Value :=
  VObj [("type", VStr "RESUME"); ("taskId", VStr "task-1");
        ("agentId", VBool true)].

Definition documents : list Value :=
  [github_signal; resume_signal; filter_signal; resume_untyped].

(** [JSON.parse] on the documents above, a [SyntaxError] elsewhere. *)
Definition parse_document (text : string) : option Value :=
  List.find (fun v => String.eqb (stringify v) text) documents.

(** Is [s] a part of [text]? *)
Fixpoint has_part (s text : string) : bool :=
  if String.prefix s text then true
  else
    match text with
    | EmptyString => false
    | String _ rest => has_part s rest
    end.

(** The filter objects of the examples, as the client reads them:
    [{ equals: s }], [{ startsWith: s }] and [{ contains: s }]. *)
Definition where_filter (v : Value) : option (string -> bool) :=
  match v with
  | VObj [(k, VStr s)] =>
      if String.eqb k "equals" then Some (String.eqb s)
      else if String.eqb k "startsWith" then Some (String.prefix s)
      else if String.eqb k "contains" then Some (has_part s)
      else None
  | _ => None
  end.

Definition env (down : nat -> bool) (published : nat -> option string)
    : Env :=
  {| JSON_parse := parse_document;
     JSON_stringify := stringify;
     Number_toString := fun _ => "0";
     toISOString := fun ms => ("T" ++ digits (Z.to_nat ms))%string;
     where_String := where_filter;
     TOPIC_NAME := "egap-events";
     clock := fun k => 1000 + 7 * Z.of_nat k;
     uuids := fun k => ("uuid-" ++ digits k)%string;
     store_down := down;
     publish_result := published |}.

Definition store_up : nat -> bool := fun _ => false.

Definition topic_up : nat -> option string :=
  fun k => Some ("message-" ++ digits k)%string.

Definition topic_down : nat -> option string := fun _ => None.

(** A store that refuses its second call and no other. *)
Definition store_down_once : nat -> bool := fun k => Nat.eqb k 1.

(** The agent the GitHub Keeper seed script creates. *)
Definition github_keeper : Agent :=
  {| agent_id := "agent-1"; agent_name := "GitHub Keeper";
     agent_role := "github";
     agent_goal := "Monitor the code repository for new changes.";
     agent_systemPrompt :=
       "You are an AI specialized in code review. Analyze commit messages.";
     agent_tools := ["github"] |}.

Definition world0 : World :=
  {| spans := []; tasks := []; usageLogs := [];
     agents := [github_keeper]; topic := []; acked := []; nacked := [];
     auditCounters := {| totalReceived := 0; totalPublished := 0;
                         totalFailed := 0; startedAt := "T1000" |};
     clock_reads := 0; ids_drawn := 0; store_calls := 0;
     publish_calls := 0 |}.

Definition github_message : Message :=
  {| msg_id := "message-0"; msg_data := stringify github_signal;
     msg_attributes := Some {[ "traceId" := "uuid-0" ]} |}.

(** A webhook whose [source] is truthy and not a string. *)
Definition untyped_body : Value := VObj [("source", VBool true)].


Definition filter_message : Message :=
  {| msg_id := "message-2"; msg_data := stringify filter_signal;
     msg_attributes := Some {[ "traceId" := "uuid-0" ]} |}.


End Sample.

(** ** Streams of deliveries and of requests *)

(** [subscription.on('message', handleMessage)]: the handler is invoked once
    per delivered message; here the deliveries are handled one after the
    other, in the order given. *)
Definition deliver_all (env : Env) (messages : list Message) (w : World)
    : World :=
  fold_left (fun w message => delivered env message w) messages w.

(** The requests [POST /webhook] receives, handled one after the other. *)
Definition serve_all (env : Env) (bodies : list Value) (w : World) : World :=
  fold_left (fun w body => snd (webhook env body w)) bodies w.

(** The number of bodies the validation of the gateway lets through. *)
Definition accepted (bodies : list Value) : nat :=
  length (filter (fun body => rejects body = false) bodies).

(** A span whose duration, if set, is not negative. *)
Definition span_timed (s : TraceSpan) : Prop :=
  forall d, span_durationMs s = Some d -> 0 <= d.


(** A block keeps a property of the stored spans, and reads the clock
    forwards. *)
Definition spans_keep (P : TraceSpan -> Prop) (w w' : World) : Prop :=
  (clock_reads w <= clock_reads w')%nat /\
  (Forall P (spans w) -> Forall P (spans w')).

(** The [taskId] a usage row names in its metadata. *)
Definition log_taskId (u : UsageLog) : Value :=
  lookup_prop "taskId" (log_metadata u).

(** What one delivery may add to the ledger: at most one task and at most
    one usage row, and a [tool_call] row only with the task it names. *)
Definition ledger_step (w w' : World) : Prop :=
  exists new_tasks new_logs,
    tasks w' = tasks w ++ new_tasks /\
    usageLogs w' = usageLogs w ++ new_logs /\
    (length new_tasks <= 1)%nat /\ (length new_logs <= 1)%nat /\
    forall u,
      u ∈ new_logs -> log_action u = "tool_call" ->
      exists t,
        new_tasks = [t] /\ log_taskId u = VStr (task_id t) /\
        log_agentId u = task_agentId t.

(** ** The factory and the seed scripts *)

(** Modelled from the spec: [Tool] as section 3 of the specification has
    it.  [name] is unique: [prisma.tool.upsert] selects by it. *)
Record Tool : Type := {
  tool_id : string;
  tool_name : string;
  tool_description : string
}.

(** The store as the factory and the seed scripts see it: the tables of
    [World], and the Tool table. *)
Record Registry : Type := {
  reg_world : World;
  reg_tools : list Tool
}.

Definition with_tools (v : list Tool) (r : Registry) : Registry :=
  {| reg_world := reg_world r; reg_tools := v |}.

Definition with_agents (v : list Agent) (w : World) : World :=
  {| spans := spans w; tasks := tasks w; usageLogs := usageLogs w;
     agents := v; topic := topic w; acked := acked w;
     nacked := nacked w; auditCounters := auditCounters w;
     clock_reads := clock_reads w; ids_drawn := ids_drawn w;
     store_calls := store_calls w; publish_calls := publish_calls w |}.

(** A step on the tables of [World], taken by the factory or a script. *)
Definition on_world {A} (c : M World A) : M Registry A :=
  fun r =>
    match c (reg_world r) with
    | (o, w) => (o, {| reg_world := w; reg_tools := reg_tools r |})
    end.

(** What [res.status(code).json(body)] of the factory sends. *)
Inductive FactoryBody : Type :=
  | ErrorBody (error : string)
  | AgentBody (agent : Agent) (tools : list Tool).

Record FactoryReply : Type := {
  factory_status : Z;
  factory_body : FactoryBody
}.

Section Catalog.
Variable env : Env.

(** One call to the store that may read or write the Tool table. *)
Definition registry_call {A} (op : M Registry A) : M Registry A :=
  fun r =>
    if store_down env (store_calls (reg_world r))
    then (Throw PrismaUnavailable,
          {| reg_world := tick_store (reg_world r);
             reg_tools := reg_tools r |})
    else op {| reg_world := tick_store (reg_world r);
               reg_tools := reg_tools r |}.

(** The first tool named [name]. *)
Definition tool_named (name : string) (r : Registry) : option Tool :=
  List.find (fun t => bool_decide (tool_name t = name)) (reg_tools r).

(** The store refuses a tool whose [id] or whose [name] is taken. *)
Definition insert_tool (row : Tool) : M Registry Tool :=
  fun r =>
    if bool_decide (tool_id row ∈ tool_id <$> reg_tools r)
       || bool_decide (tool_name row ∈ tool_name <$> reg_tools r)
    then (Throw PrismaUniqueConstraint, r)
    else (Ok row, with_tools (reg_tools r ++ [row]) r).

(** [prisma.tool.upsert({ where: { name }, update: {}, create })]: the tool
    of that name as it is, or a new one. *)
Definition prisma_tool_upsert (name description : string) : M Registry Tool :=
  registry_call
    (fun r =>
       match tool_named name r with
       | Some t => (Ok t, r)
       | None =>
           (i <- on_world (randomUUID env) ;;
            insert_tool {| tool_id := i; tool_name := name;
                           tool_description := description |}) r
       end).

(** One row of [createMany] under [skipDuplicates]: a row whose [name] or
    generated [id] is taken is left out, the others are inserted. *)
Definition insert_tool_or_skip (name description : string) : M Registry nat :=
  i <- on_world (randomUUID env) ;;
  fun r =>
    if bool_decide (i ∈ tool_id <$> reg_tools r)
       || bool_decide (name ∈ tool_name <$> reg_tools r)
    then (Ok 0%nat, r)
    else (Ok 1%nat,
          with_tools (reg_tools r ++ [{| tool_id := i; tool_name := name;
                                         tool_description := description |}])
            r).

Fixpoint insert_tools_skipping (data : list (string * string))
    : M Registry nat :=
  match data with
  | [] => ret 0%nat
  | (name, description) :: rest =>
      k <- insert_tool_or_skip name description ;;
      n <- insert_tools_skipping rest ;;
      ret (k + n)%nat
  end.

(** [prisma.tool.createMany({ data, skipDuplicates: true })]: the number
    of rows inserted. *)
Definition prisma_tool_createMany (data : list (string * string))
    : M Registry nat :=
  registry_call (insert_tools_skipping data).

(** [prisma.tool.findFirst({ where: { name } })]. *)
Definition prisma_tool_findFirst (name : string) : M Registry (option Tool) :=
  registry_call (fun r => (Ok (tool_named name r), r)).

(** The store refuses to connect an agent to a tool that does not exist,
    and refuses an agent whose [id] is taken. *)
Definition insert_agent (row : Agent) : M Registry Agent :=
  fun r =>
    if bool_decide (agent_tools row ⊆ tool_id <$> reg_tools r)
    then
      if bool_decide (agent_id row ∈ agent_id <$> agents (reg_world r))
      then (Throw PrismaUniqueConstraint, r)
      else (Ok row,
            {| reg_world :=
                 with_agents (agents (reg_world r) ++ [row]) (reg_world r);
               reg_tools := reg_tools r |})
    else (Throw PrismaRecordNotFound, r).

(** [prisma.agent.create({ data: { name, role, goal, systemPrompt,
    tools: { connect } } })] once the client has checked the types. *)
Definition create_agent (name role goal systemPrompt : string)
    (connect : list string) : M Registry Agent :=
  registry_call
    (i <- on_world (randomUUID env) ;;
     insert_agent {| agent_id := i; agent_name := name; agent_role := role;
                     agent_goal := goal; agent_systemPrompt := systemPrompt;
                     agent_tools := connect |}).

(** The [id]s of [connect: tools.map((id) => ({ id }))], each a string. *)
Fixpoint connect_ids (items : list Value) : M Registry (list string) :=
  match items with
  | [] => ret []
  | v :: rest =>
      i <- on_world (string_column v) ;;
      ids <- connect_ids rest ;;
      ret (i :: ids)
  end.

(** [prisma.agent.create] as [POST /api/agents] calls it, on the values of
    the request.  Modelled from the spec: section 3 of the specification
    gives [name], [role], [goal] and [systemPrompt] as the strings every
    agent has; the client refuses any other value for them. *)
Definition prisma_agent_create (name role goal systemPrompt : Value)
    (connect : list Value) : M Registry Agent :=
  n <- on_world (string_column name) ;;
  r <- on_world (string_column role) ;;
  g <- on_world (string_column goal) ;;
  p <- on_world (string_column systemPrompt) ;;
  ids <- connect_ids connect ;;
  create_agent n r g p ids.

(** [tools.map(...)]: a [TypeError] unless [tools] is an array. *)
Definition array_items (v : Value) : Outcome (list Value) :=
  match v with
  | VArr items => Ok items
  | _ => Throw TypeError
  end.

(** The tools [include: { tools: true }] returns with an agent. *)
Definition tools_of (a : Agent) (r : Registry) : list Tool :=
  filter (fun t => tool_id t ∈ agent_tools a) (reg_tools r).

(** The handler of [POST /api/agents] of the factory (lines 72 to 97 of
    its source), applied to [req.body]. *)
Definition post_agents (body : Value) : M Registry FactoryReply :=
  try_catch
    (name <- lift_outcome (get_prop "name" body) ;;
     role <- lift_outcome (get_prop "role" body) ;;
     goal <- lift_outcome (get_prop "goal" body) ;;
     systemPrompt <- lift_outcome (get_prop "systemPrompt" body) ;;
     tools <- lift_outcome (get_prop "tools" body) ;;
     connect <- lift_outcome (array_items tools) ;;
     agent <- prisma_agent_create name role goal systemPrompt connect ;;
     fun r =>
       (Ok {| factory_status := 201;
              factory_body := AgentBody agent (tools_of agent r) |}, r))
    (fun error =>
       ret {| factory_status := 500;
              factory_body := ErrorBody "Failed to create agent" |}).

(** [main().catch((e) => { console.error(e); process.exit(1); })]: the
    exit code of a script whose [main] is [main]. *)
Definition run_script (main : M Registry unit) (r : Registry)
    : nat * Registry :=
  match main r with
  | (Ok _, r') => (0%nat, r')
  | (Throw _, r') => (1%nat, r')
  end.

(** [main] of prisma/seed.ts. *)
Definition seed_tools_main : M Registry unit :=
  prisma_tool_upsert "search_vertex_docs"
    "Search the official Vertex AI documentation for technical answers." ;;;
  prisma_tool_upsert "send_email"
    "Send an email to a recipient. Requires subject and body." ;;;
  prisma_tool_upsert "save_file"
    "Save text content to a file in cloud storage. Requires filename and content." ;;;
  ret tt.

Definition seed_tools : Registry -> nat * Registry :=
  run_script seed_tools_main.

(** [main] of services/orchestrator/seed.ts, which creates its tools in
    one batch. *)
Definition seed_tools_batch_main : M Registry unit :=
  prisma_tool_createMany
    [("search", "Google Search"); ("email", "Send Emails");
     ("github", "GitHub Integration")] ;;;
  ret tt.

Definition seed_tools_batch : Registry -> nat * Registry :=
  run_script seed_tools_batch_main.

(** The script that creates the GitHub Keeper: [main] throws when no tool
    is named [github], and otherwise creates the agent; either way a
    failure reaches [.catch] and the script exits with code 1. *)
Definition seed_agent (r : Registry) : nat * Registry :=
  match prisma_tool_findFirst "github" r with
  | (Ok (Some githubTool), r1) =>
      run_script
        (create_agent "GitHub Keeper" "github"
           "Monitor the code repository for new changes."
           "You are an AI specialized in code review. Analyze commit messages."
           [tool_id githubTool] ;;;
         ret tt) r1
  | (Ok None, r1) => (1%nat, r1)
  | (Throw _, r1) => (1%nat, r1)
  end.

End Catalog.

(** What a seed script may add to the Tool table: tools named in [names]
    only, after the tools that were there, none under a name already in
    use; names and ids that were unique stay unique. *)
Definition tools_added (names : list string) (r r' : Registry) : Prop :=
  exists new,
    reg_tools r' = reg_tools r ++ new /\
    Forall (fun t => tool_name t ∈ names /\
                     tool_name t ∉ tool_name <$> reg_tools r) new /\
    (NoDup (tool_name <$> reg_tools r) ->
     NoDup (tool_name <$> reg_tools r')) /\
    (NoDup (tool_id <$> reg_tools r) -> NoDup (tool_id <$> reg_tools r')).

(** Every agent is connected to tools that exist. *)
Definition tools_exist (r : Registry) : Prop :=
  forall a,
    a ∈ agents (reg_world r) -> agent_tools a ⊆ tool_id <$> reg_tools r.

(** The names of the tools prisma/seed.ts and services/orchestrator/seed.ts
    create. *)
Definition seed_names : list string :=
  ["search_vertex_docs"; "send_email"; "save_file"].

Definition batch_names : list string := ["search"; "email"; "github"].

(** The identifiers [randomUUID] returns from the [k]-th on, [n] of them,
    are distinct and none is the id of a stored tool. *)
Definition ids_fresh (env : Env) (k n : nat) (r : Registry) : Prop :=
  NoDup (uuids env <$> seq k n) /\
  forall i, (k <= i < k + n)%nat -> uuids env i ∉ tool_id <$> reg_tools r.

(** The agent the GitHub Keeper script creates, with the id the store
    gives it and the id of the tool it is connected to. *)
Definition keeper (i toolId : string) : Agent :=
  {| agent_id := i; agent_name := "GitHub Keeper"; agent_role := "github";
     agent_goal := "Monitor the code repository for new changes.";
     agent_systemPrompt :=
       "You are an AI specialized in code review. Analyze commit messages.";
     agent_tools := [toolId] |}.

(** A store for the examples: the tool the GitHub Keeper of [Sample] is
    connected to, a registry over the world of [Sample], and a registry
    with no agent and no tool. *)
Definition sample_github_tool : Tool :=
  {| tool_id := "github"; tool_name := "github";
     tool_description := "GitHub Integration" |}.

Definition sample_registry : Registry :=
  {| reg_world := Sample.world0; reg_tools := [sample_github_tool] |}.

Definition empty_registry : Registry :=
  {| reg_world := with_agents [] Sample.world0; reg_tools := [] |}.

(** A request to [POST /api/agents] that names no tool. *)
Definition sample_agent_body (role : string) : Value :=
  VObj [("name", VStr "Slack Keeper"); ("role", VStr role);
        ("goal", VStr "Watch the channel.");
        ("systemPrompt", VStr "You read messages.");
        ("tools", VArr [])].

(** ** Reasoning about computations *)

(** [wp c Q s]: running [c] from [s] ends in an outcome and a state that
    [Q] accepts.  Computations are total functions, so this is a statement
    about the one run there is. *)
Definition wp {S A} (c : M S A) (Q : Outcome A -> S -> Prop) (s : S) : Prop :=
  Q (fst (c s)) (snd (c s)).

Section WpRules.
Context {S : Type}.

Lemma wp_ret {A} (a : A) (Q : Outcome A -> S -> Prop) s :
  Q (Ok a) s -> wp (ret a) Q s.
Proof. exact id. Qed.

Lemma wp_throw {A} e (Q : Outcome A -> S -> Prop) s :
  Q (Throw e) s -> wp (throw e) Q s.
Proof. exact id. Qed.

Lemma wp_lift_outcome {A} (o : Outcome A) (Q : Outcome A -> S -> Prop) s :
  Q o s -> wp (lift_outcome o) Q s.
Proof. exact id. Qed.

Lemma wp_bind {A B} (c : M S A) (k : A -> M S B) Q s :
  wp c (fun r s' => match r with
                    | Ok a => wp (k a) Q s'
                    | Throw e => Q (Throw e) s'
                    end) s ->
  wp (bind c k) Q s.
Proof. unfold wp, bind. cbv beta. by destruct (c s) as [[a|e] s']. Qed.

Lemma wp_try_catch {A} (body : M S A) handler Q s :
  wp body (fun r s' => match r with
                       | Ok a => Q (Ok a) s'
                       | Throw e => wp (handler e) Q s'
                       end) s ->
  wp (try_catch body handler) Q s.
Proof. unfold wp, try_catch. cbv beta. by destruct (body s) as [[a|e] s']. Qed.

Lemma wp_swallow {A} (c : M S A) Q s :
  wp c (fun _ s' => Q (Ok tt) s') s -> wp (swallow c) Q s.
Proof. unfold wp, swallow. cbv beta. by destruct (c s) as [[a|e] s']. Qed.

Lemma wp_when (b : bool) (body : M S unit) Q s :
  (if b then wp body Q s else Q (Ok tt) s) -> wp (when b body) Q s.
Proof. by destruct b. Qed.

(** The outcome and the final state of a run, read back from [wp]. *)
Lemma wp_run {A} (c : M S A) (Q : Outcome A -> S -> Prop) s r s' :
  wp c Q s -> c s = (r, s') -> Q r s'.
Proof. unfold wp. intros H E. by rewrite E in H. Qed.

Lemma wp_mono {A} (c : M S A) (Q Q' : Outcome A -> S -> Prop) s :
  wp c Q s -> (forall r s', Q r s' -> Q' r s') -> wp c Q' s.
Proof. unfold wp. auto. Qed.
End WpRules.

Lemma wp_io {A} (c : M World A) Q f :
  wp c (fun r w => Q r {| world := w; traceId := traceId f |}) (world f) ->
  wp (io c) Q f.
Proof. unfold wp, io. cbv beta. by destruct (c (world f)). Qed.

Lemma wp_set_traceId v Q f :
  Q (Ok tt) {| world := world f; traceId := v |} -> wp (set_traceId v) Q f.
Proof. exact id. Qed.

Lemma wp_get_traceId Q f :
  Q (Ok (traceId f)) f -> wp get_traceId Q f.
Proof. exact id. Qed.

Section WpPrimitives.
Variable env : Env.

Lemma wp_Date_now Q w :
  Q (Ok (clock env (clock_reads w))) (tick_clock w) -> wp (Date_now env) Q w.
Proof. exact id. Qed.

Lemma wp_randomUUID Q w :
  Q (Ok (uuids env (ids_drawn w))) (tick_ids w) -> wp (randomUUID env) Q w.
Proof. exact id. Qed.

Lemma wp_parse text Q w :
  match JSON_parse env text with
  | Some v => Q (Ok v) w
  | None => Q (Throw SyntaxError) w
  end ->
  wp (parse env text) Q w.
Proof. unfold parse. by destruct (JSON_parse env text). Qed.

Lemma wp_store_call {A} (op : M World A) Q w :
  (if store_down env (store_calls w)
   then Q (Throw PrismaUnavailable) (tick_store w)
   else wp op Q (tick_store w)) ->
  wp (store_call env op) Q w.
Proof.
  unfold wp, store_call. cbv beta.
  by destruct (store_down env (store_calls w)).
Qed.

Lemma wp_string_column v Q w :
  (forall s, v = VStr s -> Q (Ok s) w) ->
  ((forall s, v <> VStr s) -> Q (Throw PrismaValidationError) w) ->
  wp (string_column v) Q w.
Proof.
  intros Hs Hn. destruct v; try (by apply Hn). by apply Hs.
Qed.

Lemma wp_insert_span row Q w :
  (if bool_decide (span_id row ∈ span_id <$> spans w)
   then Q (Throw PrismaUniqueConstraint) w
   else Q (Ok row) (with_spans (spans w ++ [row]) w)) ->
  wp (insert_span row) Q w.
Proof. unfold wp, insert_span. cbv beta. by case_bool_decide. Qed.

Lemma wp_insert_task row Q w :
  (if bool_decide (task_id row ∈ task_id <$> tasks w)
   then Q (Throw PrismaUniqueConstraint) w
   else Q (Ok row) (with_tasks (tasks w ++ [row]) w)) ->
  wp (insert_task row) Q w.
Proof. unfold wp, insert_task. cbv beta. by case_bool_decide. Qed.

Lemma wp_insert_usageLog row Q w :
  (if bool_decide (log_id row ∈ log_id <$> usageLogs w)
   then Q (Throw PrismaUniqueConstraint) w
   else Q (Ok row) (with_usageLogs (usageLogs w ++ [row]) w)) ->
  wp (insert_usageLog row) Q w.
Proof. unfold wp, insert_usageLog. cbv beta. by case_bool_decide. Qed.

Lemma wp_update_spans id status d Q w :
  (if bool_decide (id ∈ span_id <$> spans w)
   then Q (Ok tt) (with_spans (update_span id status d <$> spans w) w)
   else Q (Throw PrismaRecordNotFound) w) ->
  wp (update_spans id status d) Q w.
Proof. unfold wp, update_spans. cbv beta. by case_bool_decide. Qed.

Lemma wp_find_agent selects Q w :
  Q (Ok (List.find (fun a => selects (agent_role a)) (agents w))) w ->
  wp (find_agent selects) Q w.
Proof. exact id. Qed.

Lemma wp_topic_publishMessage data attributes Q w :
  match publish_result env (publish_calls w) with
  | Some messageId =>
      Q (Ok messageId)
        (with_topic
           (topic w ++ [{| pub_messageId := messageId; pub_data := data;
                           pub_attributes := attributes |}])
           (tick_publish w))
  | None => Q (Throw PublishError) (tick_publish w)
  end ->
  wp (topic_publishMessage env data attributes) Q w.
Proof.
  unfold wp, topic_publishMessage. cbv beta.
  by destruct (publish_result env (publish_calls w)).
Qed.

Lemma wp_message_ack message Q w :
  Q (Ok tt) (with_acked (acked w ++ [msg_id message]) w) ->
  wp (message_ack message) Q w.
Proof. exact id. Qed.

Lemma wp_count bump Q w :
  Q (Ok tt) (with_auditCounters (bump (auditCounters w)) w) ->
  wp (count bump) Q w.
Proof. exact id. Qed.

Lemma wp_handleMessage message Q w :
  wp (handleMessage_frame env message) (fun r f => Q r (world f))
    {| world := w; traceId := VUndefined |} ->
  wp (handleMessage env message) Q w.
Proof.
  unfold wp, handleMessage. cbv beta.
  by destruct (handleMessage_frame env message _).
Qed.
End WpPrimitives.

(** One step of symbolic execution at the head of the goal. *)
Ltac wp_head :=
  lazymatch goal with
  | |- wp (bind _ _) _ _ => apply wp_bind
  | |- wp (ret _) _ _ => apply wp_ret
  | |- wp (throw _) _ _ => apply wp_throw
  | |- wp (lift_outcome _) _ _ => apply wp_lift_outcome
  | |- wp (try_catch _ _) _ _ => apply wp_try_catch
  | |- wp (swallow _) _ _ => apply wp_swallow
  | |- wp (when _ _) _ _ => apply wp_when
  | |- wp (io _) _ _ => apply wp_io
  | |- wp (set_traceId _) _ _ => apply wp_set_traceId
  | |- wp get_traceId _ _ => apply wp_get_traceId
  | |- wp (Date_now _) _ _ => apply wp_Date_now
  | |- wp (randomUUID _) _ _ => apply wp_randomUUID
  | |- wp (parse _ _) _ _ => apply wp_parse
  | |- wp (store_call _ _) _ _ => apply wp_store_call
  | |- wp (string_column _) _ _ =>
      apply wp_string_column;
      [intros ? ?; simplify_eq | let Hn := fresh "Hn" in
                    intros Hn;
                    try (exfalso; eapply Hn; first [eassumption | reflexivity])]
  | |- wp (insert_span _) _ _ => apply wp_insert_span
  | |- wp (insert_task _) _ _ => apply wp_insert_task
  | |- wp (insert_usageLog _) _ _ => apply wp_insert_usageLog
  | |- wp (update_spans _ _ _) _ _ => apply wp_update_spans
  | |- wp (find_agent _) _ _ => apply wp_find_agent
  | |- wp (topic_publishMessage _ _ _) _ _ => apply wp_topic_publishMessage
  | |- wp (message_ack _) _ _ => apply wp_message_ack
  | |- wp (count _) _ _ => apply wp_count
  | |- wp (handleMessage _ _) _ _ => apply wp_handleMessage
  | |- wp (id_column _ _) _ _ => unfold id_column at 1
  | |- wp (prisma_traceSpan_create _ _ _ _ _ _ _ _) _ _ =>
      unfold prisma_traceSpan_create at 1
  | |- wp (prisma_traceSpan_update _ _ _ _) _ _ =>
      unfold prisma_traceSpan_update at 1
  | |- wp (prisma_agent_findFirst _ _) _ _ =>
      unfold prisma_agent_findFirst at 1
  | |- wp (prisma_task_create _ _ _ _) _ _ => unfold prisma_task_create at 1
  | |- wp (prisma_usageLog_create _ _ _ _ _ _) _ _ =>
      unfold prisma_usageLog_create at 1
  | |- wp (if ?b then _ else _) _ _ => destruct b eqn:?
  | |- wp (match ?x with _ => _ end) _ _ => destruct x eqn:?
  | |- if ?b then _ else _ => destruct b eqn:?
  | |- match ?x with _ => _ end => destruct x eqn:?
  end; cbv beta iota;
  cbn [world traceId spans tasks usageLogs agents topic acked nacked
       auditCounters clock_reads ids_drawn store_calls publish_calls
       with_spans with_tasks with_usageLogs with_topic with_acked
       with_auditCounters tick_clock tick_ids tick_store tick_publish
       get_prop].

Ltac wp_exec := repeat wp_head.

(** Use a lemma about a block at the point where the block runs. *)
Tactic Notation "wp_use" constr(lem) "as"
    simple_intropattern(r) simple_intropattern(s) simple_intropattern(H) :=
  eapply wp_mono; [apply lem | cbv beta; intros r s H].

(** Rewrite the goal with what is known of the path taken. *)
Ltac on_path :=
  repeat match goal with
         | H : ?x = _ |- context [?x] =>
             lazymatch x with
             | get_prop _ _ => rewrite H
             | truthy _ => rewrite H
             | source_of _ => rewrite H
             | is_string _ _ => rewrite H
             | List.find _ _ => rewrite H
             | JSON_parse _ _ => rewrite H
             end
         end.

(** ** The ledger: tasks, usage rows and acknowledgements *)

Lemma is_string_true s v : is_string s v = true <-> v = VStr s.
Proof.
  destruct v; simpl; try (split; [done | by intros [=]]).
  rewrite String.eqb_eq. split; [by intros -> | by intros [= ->]].
Qed.

Section Ledger.
Variable env : Env.
Variable message : Message.

Lemma resolve_traceId_eq data f :
  resolve_traceId env message data f =
    if truthy (attr_traceId message) then (Ok (attr_traceId message), f)
    else
      match get_prop "traceId" data with
      | Ok d =>
          if truthy d then (Ok d, f)
          else (Ok (VStr (uuids env (ids_drawn (world f)))),
                {| world := tick_ids (world f); traceId := traceId f |})
      | Throw e => (Throw e, f)
      end.
Proof.
  unfold resolve_traceId, bind, lift_outcome, io, ret, randomUUID.
  destruct (truthy (attr_traceId message)); [done|].
  destruct (get_prop "traceId" data) as [d|e]; [|done].
  by destruct (truthy d).
Qed.

Lemma wp_resolve_traceId data Q f :
  (if truthy (attr_traceId message) then Q (Ok (attr_traceId message)) f
   else
     match get_prop "traceId" data with
     | Ok d =>
         if truthy d then Q (Ok d) f
         else Q (Ok (VStr (uuids env (ids_drawn (world f)))))
                {| world := tick_ids (world f); traceId := traceId f |}
     | Throw e => Q (Throw e) f
     end) ->
  wp (resolve_traceId env message data) Q f.
Proof.
  unfold wp. rewrite resolve_traceId_eq.
  destruct (truthy (attr_traceId message)); [done|].
  destruct (get_prop "traceId" data) as [d|e]; [|done].
  by destruct (truthy d).
Qed.

Lemma handle_resume_ledger data t rootStart rootSpanId f :
  wp (handle_resume env message data t rootStart rootSpanId)
    (fun r f' =>
       traceId f' = traceId f /\
       frame_post message (world f) (is_ok r) (world f') /\
       resume_post data t (world f) (is_ok r) (world f')) f.
Proof.
  unfold handle_resume. wp_exec.
  all: unfold frame_post, resume_post; cbn; on_path.
  all: repeat split; try done; try lia.
  all: repeat case_match; eauto 10.
Qed.

Lemma open_task_ledger data t source rootSpanId agent f :
  wp (open_task env data t source rootSpanId agent)
    (fun r f' =>
       traceId f' = traceId f /\
       frame_post message (world f) false (world f') /\
       (is_ok r = true ->
        task_post env data t source agent (world f) (world f'))) f.
Proof.
  unfold open_task. wp_exec.
  all: unfold frame_post, task_post; cbn; on_path.
  all: repeat split; try done; try lia.
  intros _.
  exists (uuids env (ids_drawn (world f))),
    (uuids env (S (S (ids_drawn (world f))))), a0.
  repeat split; try done.
  by apply bool_decide_eq_false in Heqb0.
Qed.

Lemma handle_signal_ledger data t rootStart rootSpanId f :
  wp (handle_signal env message data t rootStart rootSpanId)
    (fun r f' =>
       traceId f' = traceId f /\
       frame_post message (world f) (is_ok r) (world f') /\
       (is_ok r = true -> signal_post env data t (world f) (world f'))) f.
Proof.
  unfold handle_signal. wp_exec.
  all: try (unfold frame_post; cbn; by repeat split; try done; try lia).
  wp_use open_task_ledger as r f'
    (Hid & (Hn & Hag & Htp & Hau & Hck & Hak) & Htask).
  cbn in Hid, Hn, Hag, Htp, Hau, Hck, Hak.
  wp_exec.
  all: unfold frame_post; cbn.
  all: rewrite ?Hn, ?Hag, ?Htp, ?Hau, ?Hak.
  all: repeat split; try done; try lia.
  all: intros _.
  all: match goal with
       | H : source_of _ = Ok ?x |- _ => exists x; split; [exact H|]
       end.
  all: match goal with
       | H : string_where env _ = Some _ |- _ =>
           unfold agent_where; rewrite H; split; [by eexists|]
       end.
  all: specialize (Htask eq_refl).
  all: unfold task_post in *; cbn in *.
  all: exact Htask.
Qed.

(** The ledger after [process], and what it does not touch. *)
Lemma process_ledger data t rootStart rootSpanId f :
  wp (process env message data t rootStart rootSpanId)
    (fun r f' =>
       traceId f' = traceId f /\
       frame_post message (world f) (is_ok r) (world f') /\
       ledger_post env data t (world f) (is_ok r) (world f')) f.
Proof.
  unfold process. wp_exec.
  all: try (unfold frame_post, ledger_post, resume_post; cbn; on_path;
            repeat split; try done; try lia;
            repeat case_match; by auto).
  - wp_use handle_resume_ledger as r f'
      (Hid & (Hn & Hag & Htp & Hau & Hck & Hak) & Hres).
    unfold frame_post, ledger_post; cbn in *; on_path.
    by rewrite Hn, Hag, Htp, Hau, Hak.
  - wp_use handle_signal_ledger as r f'
      (Hid & (Hn & Hag & Htp & Hau & Hck & Hak) & Hsig).
    unfold frame_post, ledger_post; cbn in *; on_path.
    by rewrite Hn, Hag, Htp, Hau, Hak.
Qed.

Lemma handleMessage_try_ledger rootStart rootSpanId f :
  wp (handleMessage_try env message rootStart rootSpanId)
    (fun r f' =>
       frame_post message (world f) (is_ok r) (world f') /\
       try_post env message f (is_ok r) f') f.
Proof.
  unfold handleMessage_try. wp_exec.
  2: { unfold frame_post, try_post; on_path. by repeat split. }
  apply wp_resolve_traceId. wp_exec.
  all: try (wp_use process_ledger as r f'
              (Hid & (Hn & Hag & Htp & Hau & Hck & Hak) & Hled)).
  all: unfold frame_post, try_post; on_path; rewrite resolve_traceId_eq;
    on_path; cbn in *.
  all: try (rewrite Hn, Hag, Htp, Hau, Hak).
  all: by repeat split.
Qed.

Lemma handleMessage_catch_ledger rootStart rootSpanId e f :
  wp (handleMessage_catch env message rootStart rootSpanId e)
    (fun r f' =>
       r = Ok tt /\
       frame_post message (world f) true (world f') /\
       tasks (world f') = tasks (world f) /\
       usageLogs (world f') = usageLogs (world f)) f.
Proof.
  unfold handleMessage_catch. wp_exec.
  all: unfold frame_post; cbn; repeat split; try done; lia.
Qed.

(** [handleMessage] is its [try] block, then its [catch] block if the
    [try] block threw. *)
Lemma handleMessage_eq w :
  handleMessage env message w =
    match try_run env message w with
    | (Ok a, f) => (Ok a, world f)
    | (Throw e, f) =>
        match handleMessage_catch env message (rootStart_of env w)
                (rootSpanId_of env w) e f with
        | (r, f') => (r, world f')
        end
    end.
Proof.
  unfold handleMessage, handleMessage_frame, try_run, try_catch, bind, io,
    set_traceId, Date_now, randomUUID, enter, rootStart_of, rootSpanId_of.
  cbn.
  by destruct (handleMessage_try _ _ _ _ _) as [[a|e] f].
Qed.

Lemma ledger_post_ext data t w ok w1 w2 :
  tasks w1 = tasks w2 -> usageLogs w1 = usageLogs w2 ->
  ledger_post env data t w ok w1 -> ledger_post env data t w ok w2.
Proof.
  unfold ledger_post, resume_post, signal_post, task_post.
  by intros -> ->.
Qed.

(** Every delivery ends normally, acknowledged once, with its ledger. *)
Lemma handleMessage_ledger w :
  fst (handleMessage env message w) = Ok tt /\
  frame_post message w true (delivered env message w) /\
  delivery_post env message w (completes env message w)
    (delivered env message w).
Proof.
  unfold delivered, completes. rewrite handleMessage_eq.
  pose proof (handleMessage_try_ledger (rootStart_of env w)
                (rootSpanId_of env w) (enter w)) as HT.
  unfold wp in HT. fold (try_run env message w) in HT.
  destruct (try_run env message w) as [[[]|e] f] eqn:E;
    destruct HT as [(Hn & Hag & Htp & Hau & Hck & Hak) HT];
    cbn in Hn, Hag, Htp, Hau, Hck, Hak; cbn [fst snd is_ok] in *.
  - split; [done|]. split.
    + unfold frame_post. repeat split; try done; lia.
    + unfold delivery_post, resolved, try_post in *.
      destruct (JSON_parse env (msg_data message)) as [data|];
        [|by destruct HT].
      destruct (fst (resolve_traceId env message data (enter w)));
        by destruct HT.
  - pose proof (handleMessage_catch_ledger (rootStart_of env w)
                  (rootSpanId_of env w) e f) as HC.
    unfold wp in HC.
    destruct (handleMessage_catch _ _ _ _ _ _) as [r f'].
    cbn [fst snd] in HC.
    destruct HC as (-> & (Hn' & Hag' & Htp' & Hau' & Hck' & Hak') & HtC & HlC).
    cbn [fst snd] in *.
    split; [done|]. split.
    + unfold frame_post. rewrite Hn', Hag', Htp', Hau', Hak', Hn, Hag, Htp,
        Hau, Hak. repeat split; try done; lia.
    + unfold delivery_post, resolved, try_post in *.
      destruct (JSON_parse env (msg_data message)) as [data|].
      * destruct (fst (resolve_traceId env message data (enter w))).
        -- destruct HT as [_ HT].
           by eapply ledger_post_ext; [symmetry.. | exact HT].
        -- rewrite HtC, HlC. by destruct HT as (_ & _ & ? & ?).
      * rewrite HtC, HlC. by destruct HT as (_ & _ & ? & ?).
Qed.
End Ledger.

(** C3. For every delivered message, whether its body parses or not,
    whether an agent matches or not, and whatever exception is raised along
    the way, [handleMessage] ends normally, has called [ack()] exactly once
    for that delivery and has called [nack()] never. *)
Theorem handleMessage_acks_exactly_once env message w :
  fst (handleMessage env message w) = Ok tt /\
  acked (delivered env message w) = acked w ++ [msg_id message] /\
  nacked (delivered env message w) = nacked w.
Proof.
  destruct (handleMessage_ledger env message w)
    as (Hr & (Hn & _ & _ & _ & _ & Hak) & _).
  done.
Qed.



Lemma agent_for_Some role w a :
  agent_for role w = Some a -> a ∈ agents w /\ agent_role a = role.
Proof.
  unfold agent_for. intros H. apply List.find_some in H as [Hin Hrole].
  split; [by apply list_elem_of_In | by apply bool_decide_eq_true in Hrole].
Qed.

Lemma agent_for_None role w :
  agent_for role w = None -> ~ exists a, a ∈ agents w /\ agent_role a = role.
Proof.
  unfold agent_for. intros H (a & Hin & Hrole).
  apply list_elem_of_In in Hin.
  pose proof (List.find_none _ _ H a Hin) as Hf.
  by apply bool_decide_eq_false in Hf.
Qed.

(** A signal that is not a RESUME and is handled without an exception. *)
Lemma signal_delivery env message w data :
  JSON_parse env (msg_data message) = Some data ->
  get_prop "type" data <> Ok (VStr "RESUME") ->
  completes env message w = true ->
  exists t,
    resolved env message data w = Ok t /\
    signal_post env data t w (delivered env message w).
Proof.
  intros Hparse Htype Hok.
  destruct (handleMessage_ledger env message w) as (_ & _ & Hpost).
  unfold delivery_post in Hpost. rewrite Hparse, Hok in Hpost.
  destruct (resolved env message data w) as [t|e]; [|by destruct Hpost].
  exists t. split; [done|].
  unfold ledger_post in Hpost.
  destruct (get_prop "type" data) as [type|e] eqn:Hty; [|by destruct Hpost].
  destruct (is_string "RESUME" type) eqn:Hres; [|by apply Hpost].
  apply is_string_true in Hres. by subst.
Qed.

Lemma agent_where_Some env source selects w a :
  string_where env source = Some selects ->
  agent_where env source w = Some a ->
  a ∈ agents w /\ selects (agent_role a) = true.
Proof.
  unfold agent_where. intros -> H. apply List.find_some in H as [Hin Hsel].
  split; [by apply list_elem_of_In | done].
Qed.

Lemma agent_where_None env source selects w :
  string_where env source = Some selects ->
  agent_where env source w = None ->
  ~ exists a, a ∈ agents w /\ selects (agent_role a) = true.
Proof.
  unfold agent_where. intros -> H (a & Hin & Hsel).
  apply list_elem_of_In in Hin.
  pose proof (List.find_none _ _ H a Hin) as Hf. cbn in Hf. congruence.
Qed.

(** C1, as the code has it.  For every delivered message whose body parses
    as JSON and whose [type] is not ["RESUME"], when the handler runs to
    completion the message is acknowledged, and the source of the message,
    [data.source || 'unknown'], was a condition [findFirst] accepts.  If an
    agent exists whose role that condition selects, exactly one Task row and
    exactly one UsageLog row are created, for the first such agent, the
    latter with action ["tool_call"], 120 tokens, a cost of 0.0012 and the
    id of that agent; if no such agent exists, no Task row and no UsageLog
    row is created.  A source that is a string selects the roles equal to
    it, and no other. *)
Theorem signal_opens_task_iff_agent env message w data :
  JSON_parse env (msg_data message) = Some data ->
  get_prop "type" data <> Ok (VStr "RESUME") ->
  completes env message w = true ->
  let w' := delivered env message w in
  acked w' = acked w ++ [msg_id message] /\
  exists source selects,
    source_of data = Ok source /\
    string_where env source = Some selects /\
    (forall role,
       source = VStr role -> forall x, selects x = true <-> x = role) /\
    (((exists a, a ∈ agents w /\ selects (agent_role a) = true) /\
      exists a tk u,
        agent_where env source w = Some a /\
        selects (agent_role a) = true /\
        tasks w' = tasks w ++ [tk] /\ task_agentId tk = agent_id a /\
        usageLogs w' = usageLogs w ++ [u] /\
        log_action u = "tool_call" /\ log_tokens u = 120 /\
        log_costUsd u = 0.0012%float /\ log_agentId u = agent_id a) \/
     ((~ exists a, a ∈ agents w /\ selects (agent_role a) = true) /\
      tasks w' = tasks w /\ usageLogs w' = usageLogs w)).
Proof.
  intros Hparse Htype Hok w'.
  destruct (handleMessage_ledger env message w)
    as (_ & (_ & _ & _ & _ & _ & Hak) & _).
  split; [done|].
  destruct (signal_delivery env message w data Hparse Htype Hok)
    as (t & _ & source & Hsrc & [selects Hsel] & Htask).
  exists source, selects. split; [done|]. split; [done|]. split.
  { intros role ->. cbn in Hsel. injection Hsel as <-. intros x.
    apply bool_decide_eq_true. }
  unfold task_post in Htask.
  destruct (agent_where env source w) as [a|] eqn:Hfind.
  - left. destruct Htask as (i & j & payload & _ & _ & Ht & Hl).
    destruct (agent_where_Some _ _ _ _ _ Hsel Hfind) as [Hin Hrole].
    split; [by exists a|].
    by exists a, (signal_task env i source data payload a),
      (signal_log j i source t a).
  - right. split; [by eapply agent_where_None|done].
Qed.

Lemma signal_opens_task_iff_agent_witness :
  let env := Sample.env Sample.store_up Sample.topic_up in
  let w' := delivered env Sample.github_message Sample.world0 in
  completes env Sample.github_message Sample.world0 = true /\
  acked w' = ["message-0"] /\
  source_of Sample.github_signal = Ok (VStr "github") /\
  agent_role Sample.github_keeper = "github" /\
  exists tk u,
    tasks w' = tasks Sample.world0 ++ [tk] /\
    task_agentId tk = agent_id Sample.github_keeper /\
    usageLogs w' = usageLogs Sample.world0 ++ [u] /\
    log_action u = "tool_call" /\ log_tokens u = 120 /\
    log_costUsd u = 0.0012%float /\
    log_agentId u = agent_id Sample.github_keeper.
Proof.
  intros env w'.
  assert (completes env Sample.github_message Sample.world0 = true) as Hok
    by (vm_compute; reflexivity).
  split; [exact Hok|].
  destruct (signal_opens_task_iff_agent env Sample.github_message
              Sample.world0 Sample.github_signal)
    as (Hack & source & selects & Hsrc & Hsel & _ & Hrows).
  - vm_compute; reflexivity.
  - vm_compute. discriminate.
  - exact Hok.
  - split; [exact Hack|]. split; [reflexivity|]. split; [reflexivity|].
    injection Hsrc as <-. injection Hsel as <-.
    destruct Hrows as [[_ (a & tk & u & Ha & _ & Hrows)]|[Hnone _]].
    + injection Ha as <-. by exists tk, u.
    + destruct Hnone. exists Sample.github_keeper.
      split; [by left | reflexivity].
Defined.

(** C1, where the claim as worded fails: the source
    [{ contains: "" }] is a condition that selects every role.  The handler
    runs to completion and opens a task for the GitHub Keeper, whose role is
    not that source, nor is the role of any other agent. *)
Lemma signal_source_filter_opens_task :
  let env := Sample.env Sample.store_up Sample.topic_up in
  let w' := delivered env Sample.filter_message Sample.world0 in
  JSON_parse env (msg_data Sample.filter_message) = Some Sample.filter_signal /\
  completes env Sample.filter_message Sample.world0 = true /\
  source_of Sample.filter_signal = Ok (VObj [("contains", VStr "")]) /\
  Forall (fun a => VStr (agent_role a) <> VObj [("contains", VStr "")])
    (agents Sample.world0) /\
  exists tk u,
    tasks w' = tasks Sample.world0 ++ [tk] /\
    task_agentId tk = agent_id Sample.github_keeper /\
    usageLogs w' = usageLogs Sample.world0 ++ [u] /\
    log_action u = "tool_call" /\
    log_agentId u = agent_id Sample.github_keeper.
Proof.
  intros env w'.
  split; [vm_compute; reflexivity|]. split; [vm_compute; reflexivity|].
  split; [reflexivity|]. split; [by repeat constructor|].
  eexists _, _. vm_compute. repeat split; reflexivity.
Qed.

(** ** The usage row of a RESUME *)

Section ResumeRow.
Variable env : Env.
Variable message : Message.



End ResumeRow.





(** C6. Delivering the same message twice, when an agent matches its
    source, leaves two Task rows with different ids and the same content,
    and two UsageLog rows: nothing is deduplicated on the delivery id, the
    trace id or the payload.  Both deliveries are taken to run to
    completion, as in C1. *)
Theorem redelivery_opens_second_task env message w data role a :
  JSON_parse env (msg_data message) = Some data ->
  get_prop "type" data <> Ok (VStr "RESUME") ->
  source_of data = Ok (VStr role) ->
  agent_for role w = Some a ->
  completes env message w = true ->
  completes env message (delivered env message w) = true ->
  let w2 := delivered env message (delivered env message w) in
  exists t1 t2 u1 u2,
    tasks w2 = tasks w ++ [t1; t2] /\
    task_id t1 <> task_id t2 /\
    task_description t1 = task_description t2 /\
    task_inputPayload t1 = task_inputPayload t2 /\
    task_agentId t1 = agent_id a /\ task_agentId t2 = agent_id a /\
    usageLogs w2 = usageLogs w ++ [u1; u2] /\
    log_action u1 = "tool_call" /\ log_action u2 = "tool_call".
Proof.
  intros Hparse Htype Hsrc Hfind Hok1 Hok2 w2.
  destruct (signal_delivery env message w data Hparse Htype Hok1)
    as (t & _ & source1 & Hsrc1 & _ & Htask1).
  destruct (signal_delivery env message _ data Hparse Htype Hok2)
    as (t' & _ & source2 & Hsrc2 & _ & Htask2).
  rewrite Hsrc in Hsrc1, Hsrc2.
  injection Hsrc1 as <-. injection Hsrc2 as <-.
  destruct (handleMessage_ledger env message w) as (_ & (_ & Hag & _) & _).
  unfold agent_where in Htask1, Htask2. cbn [string_where] in Htask1, Htask2.
  rewrite Hag in Htask2.
  unfold agent_for in Hfind. rewrite Hfind in Htask1, Htask2.
  destruct Htask1 as (i1 & j1 & p1 & Hp1 & _ & Ht1 & Hl1).
  destruct Htask2 as (i2 & j2 & p2 & Hp2 & Hfresh & Ht2 & Hl2).
  rewrite Hp1 in Hp2. injection Hp2 as <-.
  exists (signal_task env i1 (VStr role) data p1 a),
    (signal_task env i2 (VStr role) data p1 a),
    (signal_log j1 i1 (VStr role) t a), (signal_log j2 i2 (VStr role) t' a).
  fold w2 in Ht2, Hl2.
  rewrite Ht2, Hl2, Ht1, Hl1, <- !app_assoc.
  repeat split; try done.
  intros Heq. apply Hfresh. rewrite Ht1, fmap_app.
  apply elem_of_app. right. cbn in Heq. subst i2. cbn. by left.
Qed.

Lemma redelivery_opens_second_task_witness :
  let env := Sample.env Sample.store_up Sample.topic_up in
  let w2 := delivered env Sample.github_message
              (delivered env Sample.github_message Sample.world0) in
  exists t1 t2 u1 u2,
    tasks w2 = tasks Sample.world0 ++ [t1; t2] /\
    task_id t1 <> task_id t2 /\
    task_description t1 = task_description t2 /\
    task_inputPayload t1 = task_inputPayload t2 /\
    task_agentId t1 = agent_id Sample.github_keeper /\
    task_agentId t2 = agent_id Sample.github_keeper /\
    usageLogs w2 = usageLogs Sample.world0 ++ [u1; u2] /\
    log_action u1 = "tool_call" /\ log_action u2 = "tool_call".
Proof.
  intros env w2.
  apply (redelivery_opens_second_task env Sample.github_message Sample.world0
           Sample.github_signal "github" Sample.github_keeper).
  - vm_compute; reflexivity.
  - vm_compute. discriminate.
  - vm_compute; reflexivity.
  - vm_compute; reflexivity.
  - vm_compute; reflexivity.
  - vm_compute; reflexivity.
Defined.

(** ** The trace: which spans a run inserts *)

Lemma links_update id status d (l : list TraceSpan) :
  span_link <$> (update_span id status d <$> l) = span_link <$> l.
Proof.
  rewrite <- list_fmap_compose. apply list_fmap_ext.
  intros i s _. unfold update_span. simpl. by case_bool_decide.
Qed.

Lemma children_post_refl rootSpanId t w w' :
  links w' = links w -> children_post rootSpanId t w w'.
Proof. intros H. exists []. by rewrite app_nil_r. Qed.

Lemma children_post_trans rootSpanId t w1 w2 w3 :
  children_post rootSpanId t w1 w2 -> children_post rootSpanId t w2 w3 ->
  children_post rootSpanId t w1 w3.
Proof.
  intros (c1 & H1 & F1) (c2 & H2 & F2). exists (c1 ++ c2).
  split; [by rewrite H2, H1, app_assoc | by apply Forall_app].
Qed.

Lemma children_post_insert rootSpanId t w w' c :
  links w' = links w ++ [c] -> child_of rootSpanId t c ->
  children_post rootSpanId t w w'.
Proof. intros H Hc. exists [c]. split; [done | by constructor]. Qed.

(** Solve a goal on the links of a world built from [w] by the steps of a
    block. *)
Ltac links_leaf :=
  unfold links in *; cbn in *;
  rewrite ?links_update, ?fmap_app in *; cbn in *.

Section Trace.
Variable env : Env.
Variable message : Message.

Lemma handle_resume_spans data t rootStart rootSpanId f :
  wp (handle_resume env message data (VStr t) rootStart rootSpanId)
    (fun _ f' => children_post rootSpanId t (world f) (world f')) f.
Proof.
  unfold handle_resume. wp_exec.
  all: try (apply children_post_refl; by links_leaf).
  all: try (eapply children_post_insert; [by links_leaf | done]).
Qed.

Lemma open_task_spans data t source rootSpanId agent f :
  wp (open_task env data (VStr t) source rootSpanId agent)
    (fun _ f' => children_post rootSpanId t (world f) (world f')) f.
Proof.
  unfold open_task. wp_exec.
  all: try (apply children_post_refl; by links_leaf).
  all: try (eapply children_post_insert; [by links_leaf | done]).
Qed.

Lemma handle_signal_spans data t rootStart rootSpanId f :
  wp (handle_signal env message data (VStr t) rootStart rootSpanId)
    (fun _ f' => children_post rootSpanId t (world f) (world f')) f.
Proof.
  unfold handle_signal. wp_exec.
  all: try (apply children_post_refl; by links_leaf).
  wp_use open_task_spans as r f' Hc.
  eapply children_post_trans in Hc as Hc';
    [|eapply children_post_insert; [by links_leaf | done]].
  clear Hc. wp_exec.
  all: eapply children_post_trans; [exact Hc'|].
  all: apply children_post_refl; by links_leaf.
Qed.

Lemma root_then_children rootSpanId t w w1 w2 :
  links w1 = links w ++ [(rootSpanId, t, None)] ->
  children_post rootSpanId t w1 w2 ->
  trace_post rootSpanId (VStr t) w w2.
Proof.
  intros H1 (cs & H2 & Hcs). right. exists t, cs.
  split; [done|]. split; [|done].
  by rewrite H2, H1, <- app_assoc.
Qed.

Lemma process_spans data t rootStart rootSpanId f :
  wp (process env message data t rootStart rootSpanId)
    (fun _ f' => trace_post rootSpanId t (world f) (world f')) f.
Proof.
  unfold process. wp_exec.
  all: try (left; by links_leaf).
  all: try (eapply root_then_children;
            [|apply children_post_refl; reflexivity]; by links_leaf).
  - wp_use handle_resume_spans as r f' Hc.
    eapply root_then_children; [|exact Hc]. by links_leaf.
  - wp_use handle_signal_spans as r f' Hc.
    eapply root_then_children; [|exact Hc]. by links_leaf.
Qed.

Lemma handleMessage_try_spans rootStart rootSpanId f :
  wp (handleMessage_try env message rootStart rootSpanId)
    (fun _ f' =>
       match JSON_parse env (msg_data message) with
       | Some data =>
           match fst (resolve_traceId env message data f) with
           | Ok t => trace_post rootSpanId t (world f) (world f')
           | Throw _ => links (world f') = links (world f)
           end
       | None => links (world f') = links (world f)
       end) f.
Proof.
  unfold handleMessage_try. wp_exec; on_path; [|done].
  apply wp_resolve_traceId. rewrite resolve_traceId_eq. wp_exec.
  all: try (wp_use process_spans as r f' Hc).
  all: cbn in *; done.
Qed.

Lemma handleMessage_catch_spans rootStart rootSpanId e f :
  wp (handleMessage_catch env message rootStart rootSpanId e)
    (fun _ f' => links (world f') = links (world f)) f.
Proof.
  unfold handleMessage_catch. wp_exec.
  all: by links_leaf.
Qed.

Lemma trace_post_ext rootSpanId t w w1 w2 :
  links w2 = links w1 ->
  trace_post rootSpanId t w w1 -> trace_post rootSpanId t w w2.
Proof. unfold trace_post. by intros ->. Qed.

(** The spans a delivery inserts. *)
Lemma handleMessage_trace w :
  delivery_trace env message w (delivered env message w).
Proof.
  unfold delivered, delivery_trace, resolved. rewrite handleMessage_eq.
  pose proof (handleMessage_try_spans (rootStart_of env w)
                (rootSpanId_of env w) (enter w)) as HT.
  unfold wp in HT. fold (try_run env message w) in HT.
  destruct (try_run env message w) as [[[]|e] f] eqn:E;
    cbn [fst snd] in *; [done|].
  pose proof (handleMessage_catch_spans (rootStart_of env w)
                (rootSpanId_of env w) e f) as HC.
  unfold wp in HC.
  destruct (handleMessage_catch _ _ _ _ _ _) as [r f'].
  cbn [fst snd] in *.
  destruct (JSON_parse env (msg_data message)) as [data|];
    [|by rewrite HC].
  destruct (fst (resolve_traceId env message data (enter w)));
    [|by rewrite HC].
  by eapply trace_post_ext.
Qed.
End Trace.

(** ** The gateway *)

Lemma rejects_false body :
  rejects body = false ->
  (exists items, body = VArr items) \/ (exists props, body = VObj props).
Proof.
  unfold rejects. destruct body; cbn; rewrite ?orb_true_r; try done; eauto.
Qed.

Lemma rejects_true body :
  rejects body = true <->
  (forall items, body <> VArr items) /\ (forall props, body <> VObj props).
Proof.
  split.
  - intros H. split; intros x ->; done.
  - intros [Ha Ho]. destruct (rejects body) eqn:E; [done|].
    destruct (rejects_false _ E) as [[items ->]|[props ->]];
      [by destruct (Ha items) | by destruct (Ho props)].
Qed.

Section GatewayFacts.
Variable env : Env.

(** A rejected body is answered 400 and changes nothing but the number
    of clock readings. *)
Lemma webhook_rejected body w :
  rejects body = true ->
  webhook env body w =
    (Ok {| reply_status := 400;
           reply_body :=
             VObj [("error", VStr "Request body must be a JSON object")] |},
     tick_clock w).
Proof.
  intros H. unfold webhook, bind, Date_now. cbn. by rewrite H.
Qed.

(** The spans one request inserts. *)
Lemma webhook_trace body w :
  trace_post (webhook_rootSpanId env w) (VStr (uuids env (ids_drawn w))) w
    (snd (webhook env body w)).
Proof.
  change (wp (webhook env body)
            (fun _ w' =>
               trace_post (webhook_rootSpanId env w)
                 (VStr (uuids env (ids_drawn w))) w w') w).
  unfold webhook. wp_exec.
  all: first
    [ left; by links_leaf
    | right; eexists _, []; split; [done|]; split;
      [by links_leaf | constructor]
    | right; eexists _, [_]; split; [done|]; split;
      [links_leaf; by rewrite <- app_assoc | by repeat constructor] ].
Qed.
End GatewayFacts.

(** ** From the inserted links back to the spans *)

Lemma links_length w : length (links w) = length (spans w).
Proof. apply length_fmap. Qed.

Lemma trace_post_parents_first rootSpanId t w w' :
  trace_post rootSpanId t w w' -> parents_first (spans w) (spans w').
Proof.
  intros [Heq | (ts & cs & -> & Heq & Hcs)] i child p Hi Hle Hp.
  - apply lookup_lt_Some in Hi.
    rewrite <- (links_length w'), Heq, links_length in Hi. lia.
  - assert (links w' !! i = Some (span_link child)) as Hl.
    { unfold links. by rewrite list_lookup_fmap, Hi. }
    rewrite Heq, lookup_app_r, links_length in Hl
      by (rewrite links_length; lia).
    destruct (i - length (spans w))%nat as [|k] eqn:Hk.
    + injection Hl as _ _ Hnone. congruence.
    + cbn in Hl. rewrite Forall_lookup in Hcs.
      destruct (Hcs k _ Hl) as [Ht Hparent]. cbn in Ht, Hparent.
      assert (links w' !! length (spans w) = Some (rootSpanId, ts, None))
        as Hroot.
      { rewrite Heq, lookup_app_r, links_length, Nat.sub_diag
          by (rewrite links_length; lia). done. }
      unfold links in Hroot. rewrite list_lookup_fmap in Hroot.
      destruct (spans w' !! length (spans w)) as [parent|] eqn:Hparent';
        [|done].
      injection Hroot as Hid Htrace _.
      exists (length (spans w)), parent.
      repeat split; try done; try lia; congruence.
Qed.

Lemma trace_post_traceId rootSpanId t w w' span :
  trace_post rootSpanId (VStr t) w w' ->
  span ∈ drop (length (spans w)) (spans w') -> span_traceId span = t.
Proof.
  intros Hpost Hin.
  apply (list_elem_of_fmap_2 span_link) in Hin.
  rewrite fmap_drop in Hin. fold (links w') in Hin.
  destruct Hpost as [Heq | (ts & cs & [= <-] & Heq & Hcs)].
  - rewrite Heq, <- links_length, drop_all in Hin. by apply elem_of_nil in Hin.
  - rewrite Heq, <- links_length, drop_app_length in Hin.
    apply elem_of_cons in Hin as [Hroot | Hchild].
    + by injection Hroot.
    + rewrite Forall_forall in Hcs. by destruct (Hcs _ Hchild).
Qed.

(** C8. Every span with a parent that the worker or the gateway writes
    names a parent that the same run inserted before it (the insert of the
    root span is awaited first) and that belongs to the same trace: no run
    writes a child span before its parent exists. *)
Theorem child_spans_follow_their_parent env :
  (forall message w,
     parents_first (spans w) (spans (delivered env message w))) /\
  (forall body w,
     parents_first (spans w) (spans (snd (webhook env body w)))).
Proof.
  split.
  - intros message w.
    pose proof (handleMessage_trace env message w) as H.
    unfold delivery_trace in H.
    destruct (JSON_parse env (msg_data message)) as [data|].
    + destruct (resolved env message data w) as [t|e].
      * by eapply trace_post_parents_first.
      * eapply (trace_post_parents_first EmptyString VNull). by left.
    + eapply (trace_post_parents_first EmptyString VNull). by left.
  - intros body w. eapply trace_post_parents_first, webhook_trace.
Qed.

Lemma child_spans_follow_their_parent_witness :
  let env := Sample.env Sample.store_up Sample.topic_up in
  let w' := delivered env Sample.github_message Sample.world0 in
  exists child,
    spans w' !! 1%nat = Some child /\
    span_parentId child = Some "uuid-0" /\
    exists j parent,
      (length (spans Sample.world0) <= j < 1)%nat /\
      spans w' !! j = Some parent /\
      span_id parent = "uuid-0" /\
      span_traceId parent = span_traceId child.
Proof.
  intros env w'.
  destruct (child_spans_follow_their_parent env) as [Hworker _].
  eexists. split; [vm_compute; reflexivity|]. split; [reflexivity|].
  apply (Hworker Sample.github_message Sample.world0 1%nat).
  - vm_compute; reflexivity.
  - cbn. lia.
  - reflexivity.
Defined.

Section Propagation.
Variable env : Env.

(** What a request answered 200 has published and replied. *)
Lemma webhook_queued body w :
  wp (webhook env body)
    (fun r w' =>
       forall reply,
         r = Ok reply ->
         reply_status reply = 200 ->
         exists messageId source payload receivedAt,
           reply_body reply =
             VObj [("status", VStr "queued");
                   ("messageId", VStr messageId);
                   ("traceId", VStr (uuids env (ids_drawn w)))] /\
           topic w' =
             topic w ++
             [{| pub_messageId := messageId;
                 pub_data :=
                   JSON_stringify env
                     (webhook_message source payload
                        (uuids env (ids_drawn w)) receivedAt);
                 pub_attributes :=
                   {[ "traceId" := uuids env (ids_drawn w) ]} |}]) w.
Proof.
  unfold webhook. wp_exec.
  all: intros reply' Hr Hst; simplify_eq/=.
  by eexists _, _, _, _.
Qed.

(** The order in which the worker looks for a [traceId]: the attribute
    of the message, then the field of its body, then a fresh one. *)
Lemma resolved_eq message data w :
  resolved env message data w =
    if truthy (attr_traceId message) then Ok (attr_traceId message)
    else
      match get_prop "traceId" data with
      | Ok d =>
          if truthy d then Ok d
          else Ok (VStr (uuids env (S (ids_drawn w))))
      | Throw e => Throw e
      end.
Proof.
  unfold resolved. rewrite resolve_traceId_eq.
  destruct (truthy (attr_traceId message)); [done|].
  destruct (get_prop "traceId" data) as [d|e]; [|done].
  by destruct (truthy d).
Qed.

Lemma resolved_attribute message data w attributes t :
  msg_attributes message = Some attributes ->
  attributes !! "traceId" = Some t ->
  t <> EmptyString ->
  resolved env message data w = Ok (VStr t).
Proof.
  intros Hattr Hlook Ht. rewrite resolved_eq.
  unfold attr_traceId. rewrite Hattr, Hlook. cbn.
  by destruct t.
Qed.

(** Every span a delivery records carries the [traceId] attribute of the
    message. *)
Lemma delivered_spans_traceId message w attributes t span :
  msg_attributes message = Some attributes ->
  attributes !! "traceId" = Some t ->
  t <> EmptyString ->
  span ∈ drop (length (spans w)) (spans (delivered env message w)) ->
  span_traceId span = t.
Proof.
  intros Hattr Hlook Ht.
  pose proof (handleMessage_trace env message w) as H.
  unfold delivery_trace in H.
  destruct (JSON_parse env (msg_data message)) as [data|].
  - rewrite (resolved_attribute _ _ _ _ _ Hattr Hlook Ht) in H.
    by eapply trace_post_traceId.
  - eapply (trace_post_traceId EmptyString). by left.
Qed.
End Propagation.

(** C4. A call to [POST /webhook] that is answered 200 returns a [traceId]
    that is both the [traceId] attribute and the [traceId] field of the
    message it published.  The worker resolves the [traceId] of a delivery
    from the attribute of the message if present, else from the field of
    its body, else from a fresh identifier; so for the published message it
    resolves the [traceId] the gateway returned, and every span it records
    for that delivery carries it. *)
Theorem webhook_traceId_reaches_worker env body w reply w' :
  uuids_nonempty env ->
  webhook env body w = (Ok reply, w') ->
  reply_status reply = 200 ->
  exists T messageId source payload receivedAt,
    reply_body reply =
      VObj [("status", VStr "queued"); ("messageId", VStr messageId);
            ("traceId", VStr T)] /\
    topic w' =
      topic w ++
      [{| pub_messageId := messageId;
          pub_data :=
            JSON_stringify env (webhook_message source payload T receivedAt);
          pub_attributes := {[ "traceId" := T ]} |}] /\
    forall env' message w0,
      (forall data,
         resolved env' message data w0 =
           if truthy (attr_traceId message) then Ok (attr_traceId message)
           else
             match get_prop "traceId" data with
             | Ok d =>
                 if truthy d then Ok d
                 else Ok (VStr (uuids env' (S (ids_drawn w0))))
             | Throw e => Throw e
             end) /\
      (forall attributes,
         msg_attributes message = Some attributes ->
         attributes !! "traceId" = Some T ->
         (forall data, resolved env' message data w0 = Ok (VStr T)) /\
         forall span,
           span ∈ drop (length (spans w0))
                    (spans (delivered env' message w0)) ->
           span_traceId span = T).
Proof.
  intros Hne Hrun Hst.
  destruct (wp_run _ _ _ _ _ (webhook_queued env body w) Hrun reply
              eq_refl Hst)
    as (messageId & source & payload & receivedAt & Hbody & Htopic).
  exists (uuids env (ids_drawn w)), messageId, source, payload, receivedAt.
  repeat split; try done.
  - intros data. apply resolved_eq.
  - intros data. by eapply resolved_attribute.
  - intros span. by eapply delivered_spans_traceId.
Qed.

Lemma webhook_traceId_reaches_worker_witness :
  let env := Sample.env Sample.store_up Sample.topic_up in
  uuids_nonempty env /\
  forall span,
    span ∈ drop (length (spans Sample.world0))
             (spans (delivered env Sample.github_message Sample.world0)) ->
    span_traceId span = "uuid-0".
Proof.
  intros env.
  assert (uuids_nonempty env) as Hne by (intros k; discriminate).
  split; [exact Hne|].
  destruct (webhook_traceId_reaches_worker env Sample.github_body
              Sample.world0
              {| reply_status := 200;
                 reply_body :=
                   VObj [("status", VStr "queued");
                         ("messageId", VStr "message-0");
                         ("traceId", VStr "uuid-0")] |}
              (snd (webhook env Sample.github_body Sample.world0)) Hne)
    as (T & messageId & source & payload & receivedAt & Hbody & _ & Hworker).
  - vm_compute; reflexivity.
  - reflexivity.
  - injection Hbody as _ <-.
    destruct (Hworker env Sample.github_message Sample.world0) as [_ Hattr].
    by destruct (Hattr {[ "traceId" := "uuid-0" ]} eq_refl eq_refl)
      as [_ Hspans].
Defined.

(** ** The error path *)

Lemma update_span_closed id status d (l : list TraceSpan) span :
  span ∈ update_span id status d <$> l ->
  span_id span = id ->
  span_durationMs span = Some d /\
  forall st, status = Some st -> span_status span = Some st.
Proof.
  intros Hin Hid. apply list_elem_of_fmap in Hin as (s0 & -> & _).
  unfold update_span in *. case_bool_decide; [|done].
  split; [done|]. by intros st ->.
Qed.

Section ErrorPath.
Variable env : Env.
Hypothesis clock_ok : clock_monotone env.

(** The [catch] block of the worker: it never throws; when [traceId] is
    truthy it makes one call to the store, and if the store does not
    refuse that call, every span with the root id is closed as an
    error. *)
Lemma handleMessage_catch_error message rootStart rootSpanId e f :
  wp (handleMessage_catch env message rootStart rootSpanId e)
    (fun r f' =>
       r = Ok tt /\
       (truthy (traceId f) = true ->
        store_calls (world f') = S (store_calls (world f)) /\
        (store_down env (store_calls (world f)) = false ->
         forall span,
           span ∈ spans (world f') -> span_id span = rootSpanId ->
           span_status span = Some ERROR /\
           span_durationMs span =
             Some (clock env (clock_reads (world f)) - rootStart)))) f.
Proof.
  unfold handleMessage_catch. wp_exec.
  all: split; [done|]; intros Ht; try done.
  all: cbn; split; [done|]; intros Hup; try done.
  - intros span Hin Hid.
    destruct (update_span_closed _ _ _ _ _ Hin Hid) as [Hd Hs].
    split; [by apply Hs | done].
  - intros span Hin Hid. apply bool_decide_eq_false in Heqb1.
    destruct Heqb1. rewrite <- Hid. by apply list_elem_of_fmap_2.
Qed.

Lemma handleMessage_error_span message w data t :
  JSON_parse env (msg_data message) = Some data ->
  resolved env message data w = Ok t ->
  truthy t = true ->
  completes env message w = false ->
  store_down env (pred (store_calls (delivered env message w))) = false ->
  forall span,
    span ∈ spans (delivered env message w) ->
    span_id span = rootSpanId_of env w ->
    span_status span = Some ERROR /\
    exists d, span_durationMs span = Some d /\ 0 <= d.
Proof.
  unfold delivered, completes, resolved. rewrite handleMessage_eq.
  intros Hparse Hres Ht.
  pose proof (handleMessage_try_ledger env message (rootStart_of env w)
                (rootSpanId_of env w) (enter w)) as HT.
  unfold wp in HT. fold (try_run env message w) in HT.
  destruct (try_run env message w) as [[[]|e] f] eqn:E;
    cbn [fst snd is_ok] in *; [done|].
  intros _.
  destruct HT as [(_ & _ & _ & _ & Hck & _) HT]. cbn in Hck.
  unfold try_post in HT. rewrite Hparse, Hres in HT.
  destruct HT as [Htid _].
  pose proof (handleMessage_catch_error message (rootStart_of env w)
                (rootSpanId_of env w) e f) as HC.
  unfold wp in HC.
  destruct (handleMessage_catch _ _ _ _ _ _) as [r f'].
  cbn [fst snd] in *. rewrite Htid in HC.
  destruct HC as [_ HC]. destruct (HC Ht) as [Hcalls Hspans].
  rewrite Hcalls. cbn [pred]. intros Hup span Hin Hid.
  destruct (Hspans Hup span Hin Hid) as [Hs Hd].
  split; [done|]. eexists. split; [exact Hd|].
  unfold rootStart_of. pose proof (clock_ok (clock_reads w)
                                     (clock_reads (world f))).
  lia.
Qed.

(** The branch of the gateway taken when the topic refuses the message:
    the answer is 500 whatever becomes of the update of the root span. *)
Lemma webhook_publish_failure body w :
  rejects body = false ->
  store_down env (store_calls w) = false ->
  webhook_rootSpanId env w ∉ span_id <$> spans w ->
  publish_result env (publish_calls w) = None ->
  fst (webhook env body w) =
    Ok {| reply_status := 500;
          reply_body := VObj [("error", VStr "Failed to queue message")] |}.
Proof.
  intros Hacc Hup Hfresh Hpub.
  change (wp (webhook env body)
            (fun r _ =>
               r = Ok {| reply_status := 500;
                         reply_body :=
                           VObj [("error",
                                  VStr "Failed to queue message")] |}) w).
  destruct (rejects_false _ Hacc) as [[items ->]|[props ->]];
    unfold webhook; rewrite Hacc.
  all: wp_exec; try done; try congruence.
  all: apply bool_decide_eq_true in Heqb0; done.
Qed.

Lemma webhook_error_span body w :
  wp (webhook env body)
    (fun r w' =>
       forall reply,
         r = Ok reply ->
         reply_status reply = 500 ->
         store_down env (pred (store_calls w')) = false ->
         forall span,
           span ∈ spans w' ->
           span_id span = webhook_rootSpanId env w ->
           span_status span = Some ERROR /\
           exists d, span_durationMs span = Some d /\ 0 <= d) w.
Proof.
  unfold webhook. wp_exec.
  all: intros reply' Hr Hst Hup span Hin Hid; simplify_eq/=.
  all: try congruence.
  all: try (destruct (update_span_closed _ _ _ _ _ Hin Hid) as [Hd Hs];
            split; [by apply Hs|]; eexists; split; [exact Hd|];
            match goal with
            | |- 0 <= clock env ?j - clock env ?i =>
                pose proof (clock_ok i j); lia
            end).
  all: match goal with
       | H : bool_decide (_ ∈ _) = false |- _ =>
           apply bool_decide_eq_false in H; destruct H
       end.
  all: rewrite ?fmap_app, ?elem_of_app; cbn; rewrite ?elem_of_cons; auto 6.
Qed.
End ErrorPath.

(** C7. On the error paths, the [catch] block of the worker once a
    [traceId] was resolved and the publish-failure branch of the gateway,
    the root span is updated with status ERROR and a [durationMs] that is
    not negative (the clock not running backwards); and a failure of that
    update is swallowed: the worker still ends normally and the gateway
    still answers 500. *)
Theorem error_path_closes_root_span env :
  clock_monotone env ->
  (forall message w, fst (handleMessage env message w) = Ok tt) /\
  (forall message w data t,
     JSON_parse env (msg_data message) = Some data ->
     resolved env message data w = Ok t ->
     truthy t = true ->
     completes env message w = false ->
     store_down env (pred (store_calls (delivered env message w))) = false ->
     forall span,
       span ∈ spans (delivered env message w) ->
       span_id span = rootSpanId_of env w ->
       span_status span = Some ERROR /\
       exists d, span_durationMs span = Some d /\ 0 <= d) /\
  (forall body w,
     rejects body = false ->
     store_down env (store_calls w) = false ->
     webhook_rootSpanId env w ∉ span_id <$> spans w ->
     publish_result env (publish_calls w) = None ->
     fst (webhook env body w) =
       Ok {| reply_status := 500;
             reply_body :=
               VObj [("error", VStr "Failed to queue message")] |}) /\
  (forall body w reply w',
     webhook env body w = (Ok reply, w') ->
     reply_status reply = 500 ->
     store_down env (pred (store_calls w')) = false ->
     forall span,
       span ∈ spans w' ->
       span_id span = webhook_rootSpanId env w ->
       span_status span = Some ERROR /\
       exists d, span_durationMs span = Some d /\ 0 <= d).
Proof.
  intros Hclock. repeat split.
  - intros message w. by destruct (handleMessage_ledger env message w).
  - eapply handleMessage_error_span; eassumption.
  - eapply handleMessage_error_span; eassumption.
  - intros body w. by apply webhook_publish_failure.
  - eapply (wp_run _ _ _ _ _ (webhook_error_span env Hclock body w));
      eauto.
  - eapply (wp_run _ _ _ _ _ (webhook_error_span env Hclock body w));
      eauto.
Qed.

Lemma error_path_closes_root_span_witness :
  let env := Sample.env Sample.store_down_once Sample.topic_down in
  let w' := delivered env Sample.github_message Sample.world0 in
  let w'' := snd (webhook env Sample.github_body Sample.world0) in
  clock_monotone env /\
  completes env Sample.github_message Sample.world0 = false /\
  rootSpanId_of env Sample.world0 ∈ span_id <$> spans w' /\
  (forall span,
     span ∈ spans w' ->
     span_id span = rootSpanId_of env Sample.world0 ->
     span_status span = Some ERROR /\
     exists d, span_durationMs span = Some d /\ 0 <= d) /\
  fst (webhook env Sample.github_body Sample.world0) =
    Ok {| reply_status := 500;
          reply_body := VObj [("error", VStr "Failed to queue message")] |} /\
  webhook_rootSpanId env Sample.world0 ∈ span_id <$> spans w''.
Proof.
  intros env w' w''.
  assert (clock_monotone env) as Hclock by (intros i j Hij; cbn; lia).
  destruct (error_path_closes_root_span env Hclock)
    as (_ & Hworker & Hgateway & _).
  split; [exact Hclock|]. split; [vm_compute; reflexivity|].
  split; [vm_compute; left|]. split; [|split].
  - apply (Hworker Sample.github_message Sample.world0 Sample.github_signal
             (VStr "uuid-0")); vm_compute; reflexivity.
  - apply Hgateway.
    + reflexivity.
    + reflexivity.
    + vm_compute. apply not_elem_of_nil.
    + reflexivity.
  - vm_compute. left.
Defined.

(** ** What the gateway publishes *)

Section Publishing.
Variable env : Env.

Lemma webhook_publishes body w :
  rejects body = false ->
  wp (webhook env body)
    (fun r w' =>
       (forall reply, r = Ok reply -> reply_status reply <> 400) /\
       totalReceived (auditCounters w')
         = S (totalReceived (auditCounters w)) /\
       exists src pl,
         get_prop "source" body = Ok src /\
         get_prop "payload" body = Ok pl /\
         (topic w' = topic w \/
          exists messageId traceId receivedAt,
            topic w' =
              topic w ++
              [{| pub_messageId := messageId;
                  pub_data :=
                    JSON_stringify env
                      (webhook_message (or_else src (VStr "unknown"))
                         (or_else pl body) traceId receivedAt);
                  pub_attributes := {[ "traceId" := traceId ]} |}]) /\
         (store_down env (store_calls w) = false ->
          webhook_rootSpanId env w ∉ span_id <$> spans w ->
          is_Some (publish_result env (publish_calls w)) ->
          length (topic w') = S (length (topic w)))) w.
Proof.
  intros Hacc.
  destruct (rejects_false _ Hacc) as [[items ->]|[props ->]];
    unfold webhook; rewrite Hacc.
  all: wp_exec.
  all: split; [by intros reply [= <-]|]; split; [done|].
  all: eexists _, _; split; [done|]; split; [done|]; cbn.
  all: split; [by eauto 10|].
  all: intros Hup Hfresh [mid Hpub]; try congruence.
  all: try (apply bool_decide_eq_true in Heqb0; done).
  all: by rewrite length_app, Nat.add_comm.
Qed.
End Publishing.

(** C9, as the code has it.  For every accepted webhook body the gateway
    never answers 400, and the message it publishes has for [source] the
    [source] of the body when that is truthy, whatever its type, and the
    string ["unknown"] otherwise, and for [payload] the [payload] of the
    body when that is truthy and the whole body otherwise; the message is
    published whenever the root span is written and the topic accepts
    it. *)
Theorem webhook_defaults_source_and_payload env body w :
  rejects body = false ->
  let r := fst (webhook env body w) in
  let w' := snd (webhook env body w) in
  (forall reply, r = Ok reply -> reply_status reply <> 400) /\
  exists src pl,
    get_prop "source" body = Ok src /\
    get_prop "payload" body = Ok pl /\
    (topic w' = topic w \/
     exists messageId traceId receivedAt,
       topic w' =
         topic w ++
         [{| pub_messageId := messageId;
             pub_data :=
               JSON_stringify env
                 (webhook_message (or_else src (VStr "unknown"))
                    (or_else pl body) traceId receivedAt);
             pub_attributes := {[ "traceId" := traceId ]} |}]) /\
    (store_down env (store_calls w) = false ->
     webhook_rootSpanId env w ∉ span_id <$> spans w ->
     is_Some (publish_result env (publish_calls w)) ->
     length (topic w') = S (length (topic w))).
Proof.
  intros Hacc r w'.
  destruct (webhook_publishes env body w Hacc) as (Hr & _ & Hpub).
  by split.
Qed.

Lemma webhook_defaults_source_and_payload_witness :
  let env := Sample.env Sample.store_up Sample.topic_up in
  let w' := snd (webhook env Sample.untyped_body Sample.world0) in
  rejects Sample.untyped_body = false /\
  exists src pl,
    get_prop "source" Sample.untyped_body = Ok src /\
    get_prop "payload" Sample.untyped_body = Ok pl /\
    (topic w' = topic Sample.world0 \/
     exists messageId traceId receivedAt,
       topic w' =
         topic Sample.world0 ++
         [{| pub_messageId := messageId;
             pub_data :=
               JSON_stringify env
                 (webhook_message (or_else src (VStr "unknown"))
                    (or_else pl Sample.untyped_body) traceId receivedAt);
             pub_attributes := {[ "traceId" := traceId ]} |}]) /\
    (store_down env (store_calls Sample.world0) = false ->
     webhook_rootSpanId env Sample.world0
       ∉ span_id <$> spans Sample.world0 ->
     is_Some (publish_result env (publish_calls Sample.world0)) ->
     length (topic w') = S (length (topic Sample.world0))).
Proof.
  intros env w'. split; [reflexivity|].
  by destruct (webhook_defaults_source_and_payload env Sample.untyped_body
                 Sample.world0 eq_refl) as [_ H].
Defined.

(** C9 as worded fails: the body [{ "source": true }] is accepted and
    published with [source] equal to [true], where the wording has the
    string ["unknown"]. *)
Lemma webhook_source_not_a_string :
  let env := Sample.env Sample.store_up Sample.topic_up in
  let w' := snd (webhook env Sample.untyped_body Sample.world0) in
  rejects Sample.untyped_body = false /\
  stated_source (VBool true) = VStr "unknown" /\
  exists p,
    topic w' = [p] /\
    pub_data p =
      JSON_stringify env
        (webhook_message (VBool true) Sample.untyped_body "uuid-0" "T1007") /\
    pub_data p <>
      JSON_stringify env
        (webhook_message (stated_source (VBool true)) Sample.untyped_body
           "uuid-0" "T1007").
Proof.
  intros env w'. split; [reflexivity|]. split; [reflexivity|].
  eexists. split; [vm_compute; reflexivity|].
  split; [vm_compute; reflexivity|].
  vm_compute. discriminate.
Qed.

(** ** The validation of the body and the audit counters *)

(** The handler answers 400 exactly when [rejects] holds of the body, that
    is when the body is neither an object nor an array. *)
Lemma webhook_400_iff env body w reply :
  fst (webhook env body w) = Ok reply ->
  (reply_status reply = 400 <-> rejects body = true).
Proof.
  intros Hr. destruct (rejects body) eqn:Hrej.
  - rewrite (webhook_rejected env body w Hrej) in Hr.
    by injection Hr as <-.
  - pose proof (webhook_publishes env body w Hrej) as (H400 & _).
    split; [|done]. intros H. by destruct (H400 _ Hr).
Qed.

(** A rejected body leaves the audit counters alone. *)
Lemma webhook_rejected_counters env body w :
  rejects body = true ->
  auditCounters (snd (webhook env body w)) = auditCounters w.
Proof. intros H. by rewrite (webhook_rejected env body w H). Qed.

(** C5, where the code departs from it: a JSON array is not a JSON object,
    yet the handler does not answer 400 to it and counts it as received
    ([typeof] of an array is ["object"]). *)
Theorem webhook_accepts_array env items w :
  let r := fst (webhook env (VArr items) w) in
  let w' := snd (webhook env (VArr items) w) in
  rejects (VArr items) = false /\
  (forall reply, r = Ok reply -> reply_status reply <> 400) /\
  totalReceived (auditCounters w') = S (totalReceived (auditCounters w)).
Proof.
  intros r w'. split; [done|].
  by destruct (webhook_publishes env (VArr items) w eq_refl)
    as (H400 & Hcount & _).
Qed.

(** When the message is published and the insert of the [pubsub_publish]
    span is then refused, the request is counted as published and as
    failed. *)
Lemma webhook_counts_twice env body w :
  rejects body = false ->
  store_down env (store_calls w) = false ->
  webhook_rootSpanId env w ∉ span_id <$> spans w ->
  is_Some (publish_result env (publish_calls w)) ->
  store_down env (S (store_calls w)) = true ->
  let c := auditCounters w in
  let c' := auditCounters (snd (webhook env body w)) in
  totalReceived c' = S (totalReceived c) /\
  totalPublished c' = S (totalPublished c) /\
  totalFailed c' = S (totalFailed c).
Proof.
  intros Hacc Hup Hfresh [mid Hpub] Hdown c c'. subst c c'.
  change (wp (webhook env body)
            (fun _ w' =>
               totalReceived (auditCounters w')
                 = S (totalReceived (auditCounters w)) /\
               totalPublished (auditCounters w')
                 = S (totalPublished (auditCounters w)) /\
               totalFailed (auditCounters w')
                 = S (totalFailed (auditCounters w))) w).
  destruct (rejects_false _ Hacc) as [[items ->]|[props ->]];
    unfold webhook; rewrite Hacc.
  all: wp_exec; try done; try congruence.
  all: apply bool_decide_eq_true in Heqb0; done.
Qed.

(** C10, where the code departs from it: one request, published, whose
    [pubsub_publish] span the store then refuses, is answered 500 and
    leaves [totalPublished + totalFailed] above [totalReceived]. *)
Theorem audit_counters_exceed_received :
  let env := Sample.env Sample.store_down_once Sample.topic_up in
  let r := fst (webhook env Sample.github_body Sample.world0) in
  let w' := snd (webhook env Sample.github_body Sample.world0) in
  r = Ok {| reply_status := 500;
            reply_body := VObj [("error", VStr "Failed to queue message")] |} /\
  length (topic w') = 1%nat /\
  totalReceived (auditCounters w') = 1%nat /\
  totalPublished (auditCounters w') = 1%nat /\
  totalFailed (auditCounters w') = 1%nat /\
  (totalReceived (auditCounters w')
   < totalPublished (auditCounters w') + totalFailed (auditCounters w'))%nat.
Proof. vm_compute. repeat split; lia. Qed.

(** ** What a delivery adds to the ledger, on every path *)

Lemma ledger_step_refl w w' :
  tasks w' = tasks w -> usageLogs w' = usageLogs w -> ledger_step w w'.
Proof.
  intros Ht Hl. exists [], []. rewrite !app_nil_r.
  repeat split; try done; try (cbn; lia).
  all: intros u Hu; by apply elem_of_nil in Hu.
Qed.

Lemma ledger_step_ext w w1 w2 :
  tasks w2 = tasks w1 -> usageLogs w2 = usageLogs w1 ->
  ledger_step w w1 -> ledger_step w w2.
Proof. unfold ledger_step. by intros -> ->. Qed.

Lemma ledger_step_resume w w' u :
  tasks w' = tasks w -> usageLogs w' = usageLogs w ++ [u] ->
  log_action u = "resume" -> ledger_step w w'.
Proof.
  intros Ht Hl Ha. exists [], [u]. rewrite app_nil_r.
  repeat split; try done; try (cbn; lia).
  all: intros u' Hu' Hc.
  all: apply list_elem_of_singleton in Hu' as ->; by rewrite Ha in Hc.
Qed.

Lemma ledger_step_task w w' t :
  tasks w' = tasks w ++ [t] -> usageLogs w' = usageLogs w ->
  ledger_step w w'.
Proof.
  intros Ht Hl. exists [t], []. rewrite app_nil_r.
  repeat split; try done; try (cbn; lia).
  all: intros u Hu; by apply elem_of_nil in Hu.
Qed.

Lemma ledger_step_task_log w w' t u :
  tasks w' = tasks w ++ [t] -> usageLogs w' = usageLogs w ++ [u] ->
  log_taskId u = VStr (task_id t) -> log_agentId u = task_agentId t ->
  ledger_step w w'.
Proof.
  intros Ht Hl Hi Ha. exists [t], [u].
  repeat split; try done; try (cbn; lia).
  all: intros u' Hu' _.
  all: apply list_elem_of_singleton in Hu' as ->; by exists t.
Qed.

(** Solve a goal on the ledger of a world built from [w] by the steps of
    a block. *)
Ltac ledger_leaf :=
  first
    [ by apply ledger_step_refl
    | by eapply ledger_step_resume
    | by eapply ledger_step_task
    | by eapply ledger_step_task_log ].

Section LedgerGrowth.
Variable env : Env.
Variable message : Message.

Lemma handle_resume_grows data t rootStart rootSpanId f :
  wp (handle_resume env message data t rootStart rootSpanId)
    (fun _ f' => ledger_step (world f) (world f')) f.
Proof. unfold handle_resume. wp_exec. all: ledger_leaf. Qed.

Lemma open_task_grows data t source rootSpanId agent f :
  wp (open_task env data t source rootSpanId agent)
    (fun _ f' => ledger_step (world f) (world f')) f.
Proof. unfold open_task. wp_exec. all: ledger_leaf. Qed.

Lemma handle_signal_grows data t rootStart rootSpanId f :
  wp (handle_signal env message data t rootStart rootSpanId)
    (fun _ f' => ledger_step (world f) (world f')) f.
Proof.
  unfold handle_signal. wp_exec.
  all: try ledger_leaf.
  wp_use open_task_grows as r f' Hs.
  wp_exec.
  all: by eapply ledger_step_ext; [| |exact Hs].
Qed.

Lemma process_grows data t rootStart rootSpanId f :
  wp (process env message data t rootStart rootSpanId)
    (fun _ f' => ledger_step (world f) (world f')) f.
Proof.
  unfold process. wp_exec.
  all: try ledger_leaf.
  - by wp_use handle_resume_grows as r f' Hs.
  - by wp_use handle_signal_grows as r f' Hs.
Qed.

Lemma handleMessage_try_grows rootStart rootSpanId f :
  wp (handleMessage_try env message rootStart rootSpanId)
    (fun _ f' => ledger_step (world f) (world f')) f.
Proof.
  unfold handleMessage_try. wp_exec; [|ledger_leaf].
  apply wp_resolve_traceId. wp_exec.
  all: try ledger_leaf.
  all: by wp_use process_grows as r f' Hs.
Qed.

End LedgerGrowth.

(** What one delivery adds to the ledger. *)
Lemma handleMessage_grows env message w :
  ledger_step w (delivered env message w).
Proof.
  unfold delivered. rewrite handleMessage_eq.
  pose proof (handleMessage_try_grows env message (rootStart_of env w)
                (rootSpanId_of env w) (enter w)) as HT.
  unfold wp in HT. fold (try_run env message w) in HT.
  destruct (try_run env message w) as [[[]|e] f] eqn:E;
    cbn [fst snd] in *; [done|].
  pose proof (handleMessage_catch_ledger env message (rootStart_of env w)
                (rootSpanId_of env w) e f) as HC.
  unfold wp in HC.
  destruct (handleMessage_catch _ _ _ _ _ _) as [r f'].
  cbn [fst snd] in *. destruct HC as (_ & _ & Ht & Hl).
  by eapply ledger_step_ext.
Qed.

(** X1. Whatever path a delivery takes, also when the handler throws half
    way and its [catch] block runs, it adds at most one task and at most
    one usage row to the tables, after the rows that were there, and
    changes no earlier row; a [tool_call] usage row is only ever written
    together with the task whose id its metadata names, for the agent of
    that task. *)
Theorem delivery_appends_to_ledger env message w :
  ledger_step w (delivered env message w).
Proof. apply handleMessage_grows. Qed.

(** ** A delivery the worker cannot read *)

(** X2. A delivery whose body is not JSON, or is the JSON [null] on a
    message without a truthy [traceId] attribute, is acknowledged without
    a single call to the store: no span, no task and no usage row is
    written, and no span is marked as failed. *)
Theorem unreadable_delivery_writes_nothing env message w :
  JSON_parse env (msg_data message) = None \/
  (JSON_parse env (msg_data message) = Some VNull /\
   truthy (attr_traceId message) = false) ->
  let w' := delivered env message w in
  spans w' = spans w /\ tasks w' = tasks w /\ usageLogs w' = usageLogs w /\
  store_calls w' = store_calls w /\
  acked w' = acked w ++ [msg_id message].
Proof.
  intros H w'. subst w'.
  change (wp (handleMessage env message)
            (fun _ w' =>
               spans w' = spans w /\ tasks w' = tasks w /\
               usageLogs w' = usageLogs w /\
               store_calls w' = store_calls w /\
               acked w' = acked w ++ [msg_id message]) w).
  apply wp_handleMessage. unfold handleMessage_frame, handleMessage_try,
    handleMessage_catch.
  repeat lazymatch goal with
         | |- wp (parse _ _) _ _ => fail
         | _ => wp_head
         end.
  apply wp_parse.
  destruct H as [H | [H Ha]]; rewrite H.
  - wp_exec; done.
  - wp_head. apply wp_resolve_traceId. rewrite Ha. wp_exec; done.
Qed.

Lemma unreadable_delivery_writes_nothing_witness :
  let env := Sample.env Sample.store_up Sample.topic_up in
  let message :=
    {| msg_id := "m-9"; msg_data := "not json"; msg_attributes := None |} in
  let w' := delivered env message Sample.world0 in
  spans w' = spans Sample.world0 /\ tasks w' = tasks Sample.world0 /\
  usageLogs w' = usageLogs Sample.world0 /\
  store_calls w' = store_calls Sample.world0 /\
  acked w' = acked Sample.world0 ++ ["m-9"].
Proof.
  intros env message.
  apply (unreadable_delivery_writes_nothing env message Sample.world0).
  left. reflexivity.
Defined.

(** ** Deliveries one after the other *)

Lemma deliver_all_cons env message messages w :
  deliver_all env (message :: messages) w =
    deliver_all env messages (delivered env message w).
Proof. reflexivity. Qed.

(** X3. After any number of deliveries, handled one after the other, the
    worker has acknowledged exactly the delivered messages, each once and
    in the order of delivery, has refused none, and has left the agents,
    the topic and the audit counters as they were. *)
Theorem deliver_all_acks_in_order env messages w :
  let w' := deliver_all env messages w in
  acked w' = acked w ++ (msg_id <$> messages) /\
  nacked w' = nacked w /\ agents w' = agents w /\ topic w' = topic w /\
  auditCounters w' = auditCounters w.
Proof.
  cbv zeta. revert w.
  induction messages as [|message messages IH]; intros w.
  - cbn. by rewrite app_nil_r.
  - rewrite deliver_all_cons.
    destruct (IH (delivered env message w)) as (Ha & Hn & Hg & Ht & Hc).
    destruct (handleMessage_ledger env message w)
      as (_ & (Hn' & Hg' & Ht' & Hc' & _ & Ha') & _).
    rewrite Ha, Hn, Hg, Ht, Hc, Ha', Hn', Hg', Ht', Hc'.
    by rewrite fmap_cons, <- app_assoc.
Qed.

(** X4. After any number of deliveries the tables of tasks and of usage
    rows are the earlier tables followed by new rows, at most one task and
    one usage row for each delivery: the worker never deletes or rewrites
    a task or a usage row. *)
Theorem deliver_all_ledger_grows env messages w :
  let w' := deliver_all env messages w in
  exists new_tasks new_logs,
    tasks w' = tasks w ++ new_tasks /\
    usageLogs w' = usageLogs w ++ new_logs /\
    (length new_tasks <= length messages)%nat /\
    (length new_logs <= length messages)%nat.
Proof.
  cbv zeta. revert w.
  induction messages as [|message messages IH]; intros w.
  - exists [], []. cbn. by rewrite !app_nil_r.
  - rewrite deliver_all_cons.
    destruct (IH (delivered env message w)) as (nt & nl & Ht & Hl & Hnt & Hnl).
    destruct (handleMessage_grows env message w)
      as (nt' & nl' & Ht' & Hl' & Hnt' & Hnl' & _).
    exists (nt' ++ nt), (nl' ++ nl).
    rewrite Ht, Hl, Ht', Hl', <- !app_assoc, !length_app. cbn.
    repeat split; try done; lia.
Qed.

(** ** What the handlers write into a span *)

Lemma spans_keep_trans P w1 w2 w3 :
  spans_keep P w1 w2 -> spans_keep P w2 w3 -> spans_keep P w1 w3.
Proof. intros [H1 F1] [H2 F2]. split; [lia | auto]. Qed.

(** Every write of a span is an insert without a status, or an update
    that sets a status other than [OK] or none; the duration written is the
    time between two readings of the clock, the later minus the earlier.
    A property [P] of spans that such writes establish and keep is kept by
    both handlers. *)
Section SpanWrites.
Variable env : Env.
Variable P : TraceSpan -> Prop.
Variable D : Z -> Prop.
Hypothesis P_insert :
  forall row,
    span_status row = None ->
    (forall d, span_durationMs row = Some d -> D d) -> P row.
Hypothesis P_close :
  forall status d s,
    status <> Some OK -> D d -> P s -> P (close_span status d s).
Hypothesis D_clock :
  forall i j, (i <= j)%nat -> D (clock env j - clock env i).

Lemma keep_insert l row :
  span_status row = None ->
  (forall d, span_durationMs row = Some d -> D d) ->
  Forall P l -> Forall P (l ++ [row]).
Proof.
  intros Hs Hd Hl. apply Forall_app. split; [done|].
  constructor; [by apply P_insert | constructor].
Qed.

Lemma keep_update id status d l :
  status <> Some OK -> D d ->
  Forall P l -> Forall P (update_span id status d <$> l).
Proof.
  intros Hs Hd Hl. apply Forall_fmap. eapply Forall_impl; [exact Hl|].
  intros s Hp. unfold update_span. cbn. case_bool_decide; [|done].
  by apply P_close.
Qed.

(** Solve a goal on the spans of a world built from [w] by the steps of
    a block that started its clock at reading [k0]. *)
Ltac keep_leaf :=
  split; [cbn; lia|]; cbn; intros;
  repeat first
    [ assumption
    | apply keep_update; [done | apply D_clock; cbn; lia |]
    | apply keep_insert;
      [done | cbn; intros ? [= <-]; apply D_clock; cbn; lia |]
    | apply keep_insert; [done | by cbn |] ].

Section Blocks.
Variable message : Message.
Variable k0 : nat.

Lemma handle_resume_keeps data t rootSpanId f :
  (k0 <= clock_reads (world f))%nat ->
  wp (handle_resume env message data t (clock env k0) rootSpanId)
    (fun _ f' => spans_keep P (world f) (world f')) f.
Proof. intros Hk. unfold handle_resume. wp_exec. all: keep_leaf. Qed.

Lemma open_task_keeps data t source rootSpanId agent f :
  wp (open_task env data t source rootSpanId agent)
    (fun _ f' => spans_keep P (world f) (world f')) f.
Proof. unfold open_task. wp_exec. all: keep_leaf. Qed.

Lemma handle_signal_keeps data t rootSpanId f :
  (k0 <= clock_reads (world f))%nat ->
  wp (handle_signal env message data t (clock env k0) rootSpanId)
    (fun _ f' => spans_keep P (world f) (world f')) f.
Proof.
  intros Hk. unfold handle_signal. wp_exec.
  all: try keep_leaf.
  wp_use open_task_keeps as r f' Hs.
  match type of Hs with
  | spans_keep _ ?w1 _ =>
      assert (spans_keep P (world f) w1) as Hpre by keep_leaf
  end.
  destruct (spans_keep_trans _ _ _ _ Hpre Hs) as [Hck Hs'].
  clear Hs Hpre. cbn in Hck.
  wp_exec.
  all: split; [cbn; lia|]; cbn; intros HF; specialize (Hs' HF).
  all: repeat first
    [ assumption
    | apply keep_update; [done | apply D_clock; cbn; lia |] ].
Qed.

Lemma process_keeps data t rootSpanId f :
  (k0 <= clock_reads (world f))%nat ->
  wp (process env message data t (clock env k0) rootSpanId)
    (fun _ f' => spans_keep P (world f) (world f')) f.
Proof.
  intros Hk. unfold process. wp_exec.
  all: try keep_leaf.
  - eapply wp_mono; [by apply handle_resume_keeps|].
    cbv beta. intros r f' Hs.
    eapply spans_keep_trans; [|exact Hs]. keep_leaf.
  - eapply wp_mono; [by apply handle_signal_keeps|].
    cbv beta. intros r f' Hs.
    eapply spans_keep_trans; [|exact Hs]. keep_leaf.
Qed.

Lemma handleMessage_try_keeps rootSpanId f :
  (k0 <= clock_reads (world f))%nat ->
  wp (handleMessage_try env message (clock env k0) rootSpanId)
    (fun _ f' => spans_keep P (world f) (world f')) f.
Proof.
  intros Hk. unfold handleMessage_try. wp_exec; [|keep_leaf].
  apply wp_resolve_traceId. wp_exec.
  all: try keep_leaf.
  all: eapply wp_mono; [by apply process_keeps|].
  all: cbv beta; intros r f' Hs.
  all: eapply spans_keep_trans; [|exact Hs]; keep_leaf.
Qed.

Lemma handleMessage_catch_keeps rootSpanId e f :
  (k0 <= clock_reads (world f))%nat ->
  wp (handleMessage_catch env message (clock env k0) rootSpanId e)
    (fun _ f' => spans_keep P (world f) (world f')) f.
Proof. intros Hk. unfold handleMessage_catch. wp_exec. all: keep_leaf. Qed.

End Blocks.

Lemma handleMessage_keeps message w :
  Forall P (spans w) -> Forall P (spans (delivered env message w)).
Proof.
  unfold delivered. rewrite handleMessage_eq.
  pose proof (handleMessage_try_keeps message (clock_reads w)
                (rootSpanId_of env w) (enter w)) as HT.
  unfold wp in HT. fold (rootStart_of env w) in HT.
  fold (try_run env message w) in HT.
  destruct (try_run env message w) as [[[]|e] f] eqn:E;
    cbn [fst snd] in *.
  { apply HT. cbn. lia. }
  destruct HT as [Hck HF]; [cbn; lia|]. cbn in Hck.
  pose proof (handleMessage_catch_keeps message (clock_reads w)
                (rootSpanId_of env w) e f) as HC.
  unfold wp in HC. fold (rootStart_of env w) in HC.
  destruct (handleMessage_catch _ _ _ _ _ _) as [r f'].
  cbn [fst snd] in *. intros H. apply HC; [lia | auto].
Qed.

Lemma webhook_keeps body w :
  Forall P (spans w) -> Forall P (spans (snd (webhook env body w))).
Proof.
  change (wp (webhook env body)
            (fun _ w' => Forall P (spans w) -> Forall P (spans w')) w).
  unfold webhook. wp_exec.
  all: cbn; intros.
  all: repeat first
    [ assumption
    | apply keep_update; [done | apply D_clock; cbn; lia |]
    | apply keep_insert;
      [done | cbn; intros ? [= <-]; apply D_clock; cbn; lia |]
    | apply keep_insert; [done | by cbn |] ].
Qed.

End SpanWrites.

Lemma close_span_timed status d s : 0 <= d -> span_timed (close_span status d s).
Proof. intros Hd d' [= <-]. done. Qed.

(** X5. With a clock that never runs backwards, neither handler ever
    stores a negative duration: if no stored span has one before a request
    to the gateway or a delivery to the worker, none has one after it, on
    the paths that fail as on those that succeed. *)
Theorem durations_never_negative env body message w :
  clock_monotone env ->
  Forall span_timed (spans w) ->
  Forall span_timed (spans (snd (webhook env body w))) /\
  Forall span_timed (spans (delivered env message w)).
Proof.
  intros Hmono Hw.
  assert (forall i j, (i <= j)%nat -> 0 <= clock env j - clock env i) as Hd.
  { intros i j Hij. specialize (Hmono i j Hij). lia. }
  split.
  - by apply (webhook_keeps env span_timed (fun d => 0 <= d)
                (fun row _ H => H)
                (fun status d s _ H _ => close_span_timed status d s H) Hd).
  - by apply (handleMessage_keeps env span_timed (fun d => 0 <= d)
                (fun row _ H => H)
                (fun status d s _ H _ => close_span_timed status d s H) Hd).
Qed.


Lemma durations_never_negative_witness :
  let env := Sample.env Sample.store_up Sample.topic_up in
  let w := snd (webhook env Sample.github_body Sample.world0) in
  length (spans w) = 2%nat /\
  Forall span_timed (spans (snd (webhook env Sample.github_body w))) /\
  Forall span_timed (spans (delivered env Sample.github_message w)).
Proof.
  intros env w. split; [vm_compute; reflexivity|].
  apply (durations_never_negative env Sample.github_body
           Sample.github_message w).
  - intros i j Hij. cbn. lia.
  - let l := eval vm_compute in (spans w) in change (Forall span_timed l).
    repeat constructor; intros d [= <-]; done.
Defined.


(** ** The audit counters of the gateway *)

(** What one request does to the counters and to the topic, by the way
    it is answered. *)
Lemma webhook_accounts env body w :
  wp (webhook env body)
    (fun r w' =>
       let c := auditCounters w in
       let c' := auditCounters w' in
       (startedAt c' = startedAt c /\
        tasks w' = tasks w /\ usageLogs w' = usageLogs w /\
        agents w' = agents w /\ acked w' = acked w /\ nacked w' = nacked w) /\
       match r with
       | Ok reply =>
           (reply_status reply = 400 /\ rejects body = true /\
            c' = c /\ topic w' = topic w /\ spans w' = spans w) \/
           (reply_status reply = 200 /\ rejects body = false /\
            totalReceived c' = S (totalReceived c) /\
            totalPublished c' = S (totalPublished c) /\
            totalFailed c' = totalFailed c /\
            exists p, topic w' = topic w ++ [p]) \/
           (reply_status reply = 500 /\ rejects body = false /\
            totalReceived c' = S (totalReceived c) /\
            totalFailed c' = S (totalFailed c) /\
            ((totalPublished c' = totalPublished c /\ topic w' = topic w) \/
             (totalPublished c' = S (totalPublished c) /\
              exists p, topic w' = topic w ++ [p])))
       | Throw _ =>
           rejects body = false /\
           totalReceived c' = S (totalReceived c) /\
           totalPublished c' = totalPublished c /\
           totalFailed c' = totalFailed c /\
           topic w' = topic w
       end) w.
Proof.
  unfold webhook. wp_exec.
  all: cbv zeta; cbn; split; [by repeat split|].
  all: first
    [ by repeat split
    | left; by destruct (auditCounters w)
    | right; left; repeat split; try done; by eexists
    | right; right; repeat split; try done;
      first [ left; by repeat split
            | right; split; [done | by eexists] ] ].
Qed.

(** X7. Every request to [POST /webhook] is accounted for by the way it is
    answered.  A 400 leaves the counters, the topic and the spans as they
    were.  A 200 counts the request as received and as published, not as
    failed, and has put exactly one message on the topic.  A 500 counts it
    as received and as failed, and as published exactly when a message
    went out all the same.  A rejection of the handler, which happens when
    the root span cannot be stored, counts it as received only and
    publishes nothing.  No request touches a task, a usage row, an agent or
    an acknowledgement. *)
Theorem webhook_reply_accounts env body w :
  let r := fst (webhook env body w) in
  let w' := snd (webhook env body w) in
  let c := auditCounters w in
  let c' := auditCounters w' in
  (startedAt c' = startedAt c /\
   tasks w' = tasks w /\ usageLogs w' = usageLogs w /\
   agents w' = agents w /\ acked w' = acked w /\ nacked w' = nacked w) /\
  match r with
  | Ok reply =>
      (reply_status reply = 400 /\ rejects body = true /\
       c' = c /\ topic w' = topic w /\ spans w' = spans w) \/
      (reply_status reply = 200 /\ rejects body = false /\
       totalReceived c' = S (totalReceived c) /\
       totalPublished c' = S (totalPublished c) /\
       totalFailed c' = totalFailed c /\
       exists p, topic w' = topic w ++ [p]) \/
      (reply_status reply = 500 /\ rejects body = false /\
       totalReceived c' = S (totalReceived c) /\
       totalFailed c' = S (totalFailed c) /\
       ((totalPublished c' = totalPublished c /\ topic w' = topic w) \/
        (totalPublished c' = S (totalPublished c) /\
         exists p, topic w' = topic w ++ [p])))
  | Throw _ =>
      rejects body = false /\
      totalReceived c' = S (totalReceived c) /\
      totalPublished c' = totalPublished c /\
      totalFailed c' = totalFailed c /\
      topic w' = topic w
  end.
Proof. exact (webhook_accounts env body w). Qed.

Lemma serve_all_cons env body bodies w :
  serve_all env (body :: bodies) w =
    serve_all env bodies (snd (webhook env body w)).
Proof. reflexivity. Qed.

Lemma accepted_cons body bodies :
  accepted (body :: bodies) =
    ((if rejects body then 0 else 1) + accepted bodies)%nat.
Proof.
  unfold accepted. rewrite filter_cons.
  destruct (rejects body); by case_decide.
Qed.

(** X8. After any number of requests to one gateway process, answered one
    after the other, [totalReceived] has grown by the number of bodies that
    passed the validation, [totalPublished] has grown by exactly the number
    of messages put on the topic, neither it nor [totalFailed] has grown by
    more than [totalReceived] has, no counter has gone down, and the
    messages that were on the topic are still there, in front of the new
    ones. *)
Theorem serve_all_counters env bodies w :
  let w' := serve_all env bodies w in
  let c := auditCounters w in
  let c' := auditCounters w' in
  (totalReceived c' = totalReceived c + accepted bodies /\
   totalPublished c' + length (topic w)
     = totalPublished c + length (topic w') /\
   totalPublished c <= totalPublished c' <= totalPublished c + accepted bodies /\
   totalFailed c <= totalFailed c' <= totalFailed c + accepted bodies)%nat /\
  startedAt c' = startedAt c /\
  exists new, topic w' = topic w ++ new.
Proof.
  cbv zeta. revert w.
  induction bodies as [|body bodies IH]; intros w.
  - cbn. repeat split; try lia. exists []. by rewrite app_nil_r.
  - rewrite serve_all_cons, accepted_cons.
    destruct (IH (snd (webhook env body w)))
      as ((Hr & Hp & Hpb & Hf) & Hs & new & Ht).
    pose proof (webhook_accounts env body w) as H. unfold wp in H.
    cbv zeta in H. destruct H as [(Hs' & _) H].
    rewrite Hs, Hs', Hr, Ht.
    rewrite Ht, length_app in Hp.
    destruct (fst (webhook env body w)) as [reply|e].
    + destruct H as [(_ & -> & Hc & Ht' & _)
                    |[(_ & -> & Hr' & Hp' & Hf' & p & Ht')
                     |(_ & -> & Hr' & Hf' &
                       [[Hp' Ht']|[Hp' [p Ht']]])]].
      all: rewrite ?Hc, ?Ht', ?length_app, <- ?app_assoc in *; cbn in *.
      all: split; [repeat split; lia|]; split; [done|]; by eexists.
    + destruct H as (-> & Hr' & Hp' & Hf' & Ht').
      rewrite Ht', ?length_app in *.
      split; [repeat split; lia|]. split; [done|]. by eexists.
Qed.

(** ** The factory and the seed scripts *)

Lemma wp_on_world {A} (c : M World A) Q r :
  wp c (fun o w => Q o {| reg_world := w; reg_tools := reg_tools r |})
    (reg_world r) ->
  wp (on_world c) Q r.
Proof. unfold wp, on_world. cbv beta. by destruct (c (reg_world r)). Qed.

Lemma wp_registry_call env {A} (op : M Registry A) Q r :
  (if store_down env (store_calls (reg_world r))
   then Q (Throw PrismaUnavailable)
          {| reg_world := tick_store (reg_world r);
             reg_tools := reg_tools r |}
   else wp op Q {| reg_world := tick_store (reg_world r);
                   reg_tools := reg_tools r |}) ->
  wp (registry_call env op) Q r.
Proof.
  unfold wp, registry_call. cbv beta.
  by destruct (store_down env (store_calls (reg_world r))).
Qed.

Lemma wp_insert_tool row Q r :
  (if bool_decide (tool_id row ∈ tool_id <$> reg_tools r)
      || bool_decide (tool_name row ∈ tool_name <$> reg_tools r)
   then Q (Throw PrismaUniqueConstraint) r
   else Q (Ok row) (with_tools (reg_tools r ++ [row]) r)) ->
  wp (insert_tool row) Q r.
Proof. unfold wp, insert_tool. cbv beta. by destruct (_ || _). Qed.

Lemma wp_insert_agent row Q r :
  (if bool_decide (agent_tools row ⊆ tool_id <$> reg_tools r)
   then
     if bool_decide (agent_id row ∈ agent_id <$> agents (reg_world r))
     then Q (Throw PrismaUniqueConstraint) r
     else Q (Ok row)
            {| reg_world :=
                 with_agents (agents (reg_world r) ++ [row]) (reg_world r);
               reg_tools := reg_tools r |}
   else Q (Throw PrismaRecordNotFound) r) ->
  wp (insert_agent row) Q r.
Proof.
  unfold wp, insert_agent. cbv beta.
  by repeat case_bool_decide.
Qed.

(** One step of symbolic execution on a registry. *)
Ltac reg_head :=
  lazymatch goal with
  | |- wp (on_world _) _ _ => apply wp_on_world
  | |- wp (registry_call _ _) _ _ => apply wp_registry_call
  | |- wp (insert_tool _) _ _ => apply wp_insert_tool
  | |- wp (insert_agent _) _ _ => apply wp_insert_agent
  | |- wp (prisma_tool_upsert _ _ _) _ _ => unfold prisma_tool_upsert at 1
  | |- wp (prisma_tool_findFirst _ _) _ _ =>
      unfold prisma_tool_findFirst at 1
  | |- wp (create_agent _ _ _ _ _ _) _ _ => unfold create_agent at 1
  | |- wp (prisma_agent_create _ _ _ _ _ _) _ _ =>
      unfold prisma_agent_create at 1
  | |- wp (fun r => (_, _)) _ _ => unfold wp at 1; cbv beta
  | _ => wp_head
  end; cbv beta iota;
  cbn [reg_world reg_tools with_tools with_agents spans tasks usageLogs
       agents topic acked nacked auditCounters clock_reads ids_drawn
       store_calls publish_calls tick_store tick_ids fst snd].

Ltac reg_exec := repeat reg_head.

Lemma tools_added_refl names r r' :
  reg_tools r' = reg_tools r -> tools_added names r r'.
Proof.
  intros H. exists []. rewrite H, app_nil_r. by repeat split.
Qed.

Lemma tools_added_trans names r1 r2 r3 :
  tools_added names r1 r2 -> tools_added names r2 r3 ->
  tools_added names r1 r3.
Proof.
  intros (n1 & H1 & F1 & Hn1 & Hi1) (n2 & H2 & F2 & Hn2 & Hi2).
  exists (n1 ++ n2). split; [by rewrite H2, H1, app_assoc|].
  split; [|by auto]. apply Forall_app. split; [done|].
  eapply Forall_impl; [exact F2|]. intros t [Ht Hnew]. split; [done|].
  intros Hin. apply Hnew. rewrite H1, fmap_app, elem_of_app. by left.
Qed.

Lemma tools_added_one names r r' t :
  reg_tools r' = reg_tools r ++ [t] ->
  tool_name t ∈ names ->
  tool_name t ∉ tool_name <$> reg_tools r ->
  tool_id t ∉ tool_id <$> reg_tools r ->
  tools_added names r r'.
Proof.
  intros H Hn Hname Hid. exists [t]. rewrite H, !fmap_app. cbn.
  split; [done|]. split; [by repeat constructor|].
  split; intros Hd; apply NoDup_app; (split; [done|]).
  all: split; [|apply NoDup_singleton].
  all: intros x Hx Hx'; apply list_elem_of_singleton in Hx' as ->; done.
Qed.

Lemma tools_added_mono names names' r r' :
  names ⊆ names' -> tools_added names r r' -> tools_added names' r r'.
Proof.
  intros Hsub (new & H & F & Hn & Hi). exists new. repeat split; try done.
  eapply Forall_impl; [exact F|]. intros t [Ht Hnew]. split; [|done].
  by apply Hsub.
Qed.

(** Seeding again adds nothing once every name is there. *)
Lemma tools_added_all_present names r r' :
  tools_added names r r' ->
  names ⊆ tool_name <$> reg_tools r ->
  reg_tools r' = reg_tools r.
Proof.
  intros ([|t new] & H & F & _) Hsub; [by rewrite H, app_nil_r|].
  apply Forall_cons in F as [[Ht Hnew] _]. destruct Hnew. by apply Hsub.
Qed.

Lemma tool_named_Some name r t :
  tool_named name r = Some t -> t ∈ reg_tools r /\ tool_name t = name.
Proof.
  unfold tool_named. intros H. apply find_some in H as [Hin Hb].
  split; [by apply list_elem_of_In | by apply bool_decide_eq_true in Hb].
Qed.

Lemma tool_named_None name r :
  tool_named name r = None <-> name ∉ tool_name <$> reg_tools r.
Proof.
  unfold tool_named. split.
  - intros H Hin. apply list_elem_of_fmap in Hin as (t & -> & Hin).
    apply list_elem_of_In in Hin.
    pose proof (find_none _ _ H _ Hin) as Hb. cbn in Hb.
    by apply bool_decide_eq_false in Hb.
  - intros Hn. destruct (List.find _ _) as [t|] eqn:E; [|done].
    apply tool_named_Some in E as [Hin <-]. destruct Hn.
    apply list_elem_of_fmap. by exists t.
Qed.

Section Seeds.
Variable env : Env.

Lemma prisma_tool_upsert_adds names name description r :
  name ∈ names ->
  wp (prisma_tool_upsert env name description)
    (fun o r' =>
       agents (reg_world r') = agents (reg_world r) /\
       tools_added names r r' /\
       (is_ok o = true -> name ∈ tool_name <$> reg_tools r')) r.
Proof.
  intros Hn.
  set (Q := fun (o : Outcome Tool) (r' : Registry) =>
              agents (reg_world r') = agents (reg_world r) /\
              tools_added names r r' /\
              (is_ok o = true -> name ∈ tool_name <$> reg_tools r')).
  unfold prisma_tool_upsert. apply wp_registry_call.
  destruct (store_down env (store_calls (reg_world r)));
    [by split; [|split; [apply tools_added_refl|]]|].
  unfold wp at 1. cbv beta.
  destruct (tool_named name _) as [t|] eqn:E.
  - apply tool_named_Some in E as [Hin <-]. cbn in Hin.
    split; [done|]. split; [by apply tools_added_refl|]. intros _. cbn.
    apply list_elem_of_fmap. by exists t.
  - match goal with
    | |- Q (fst (?c ?s)) _ => change (wp c Q s)
    end.
    subst Q. reg_exec.
    + by split; [|split; [apply tools_added_refl|]].
    + apply orb_false_iff in Heqb as [Hid Hname].
      apply bool_decide_eq_false in Hid, Hname. cbn in Hid, Hname.
      split; [done|]. split; [by eapply tools_added_one|]. intros _. cbn.
      rewrite fmap_app, elem_of_app. right. cbn. by left.
Qed.

(** What [main] of prisma/seed.ts leaves behind. *)
Lemma seed_tools_main_adds r :
  wp (seed_tools_main env)
    (fun o r' =>
       agents (reg_world r') = agents (reg_world r) /\
       tools_added seed_names r r' /\
       (is_ok o = true -> seed_names ⊆ tool_name <$> reg_tools r')) r.
Proof.
  unfold seed_tools_main. apply wp_bind.
  eapply wp_mono;
    [apply (prisma_tool_upsert_adds seed_names); by repeat constructor|].
  cbv beta. intros [t1|e1] r1 (Ha1 & Ht1 & Hn1); [|by split].
  apply wp_bind.
  eapply wp_mono;
    [apply (prisma_tool_upsert_adds seed_names); by repeat constructor|].
  cbv beta. intros [t2|e2] r2 (Ha2 & Ht2 & Hn2).
  2: { split; [congruence|]. split; [by eapply tools_added_trans|done]. }
  apply wp_bind.
  eapply wp_mono;
    [apply (prisma_tool_upsert_adds seed_names); by repeat constructor|].
  cbv beta. intros [t3|e3] r3 (Ha3 & Ht3 & Hn3).
  2: { split; [congruence|].
       split; [by do 2 (eapply tools_added_trans; [|eassumption])|done]. }
  apply wp_ret. split; [congruence|].
  assert (tools_added seed_names r r3) as Hall
    by (by do 2 (eapply tools_added_trans; [|eassumption])).
  split; [done|]. intros _.
  destruct Ht2 as (n2 & E2 & _), Ht3 as (n3 & E3 & _).
  specialize (Hn1 eq_refl). specialize (Hn2 eq_refl).
  specialize (Hn3 eq_refl).
  intros x Hx. unfold seed_names in Hx.
  rewrite !elem_of_cons in Hx.
  destruct Hx as [->|[->|[->|Hx]]]; [| |done|by apply elem_of_nil in Hx].
  - rewrite E3, E2, !fmap_app, !elem_of_app. by left; left.
  - rewrite E3, !fmap_app, !elem_of_app. by left.
Qed.

End Seeds.

Section BatchSeed.
Variable env : Env.

Lemma insert_tool_or_skip_adds names name description r :
  name ∈ names ->
  wp (insert_tool_or_skip env name description)
    (fun o r' =>
       (exists n, o = Ok n) /\
       agents (reg_world r') = agents (reg_world r) /\
       ids_drawn (reg_world r') = S (ids_drawn (reg_world r)) /\
       tools_added names r r' /\
       (tool_id <$> reg_tools r' = tool_id <$> reg_tools r \/
        tool_id <$> reg_tools r'
          = (tool_id <$> reg_tools r)
              ++ [uuids env (ids_drawn (reg_world r))]) /\
       (uuids env (ids_drawn (reg_world r)) ∉ tool_id <$> reg_tools r ->
        name ∈ tool_name <$> reg_tools r')) r.
Proof.
  intros Hn. unfold insert_tool_or_skip. apply wp_bind, wp_on_world.
  apply wp_randomUUID. unfold wp. cbn.
  destruct (bool_decide (_ ∈ tool_id <$> _)) eqn:Hid; cbn.
  - apply bool_decide_eq_true in Hid.
    split; [by eexists|]. repeat split; try done.
    + by apply tools_added_refl.
    + by left.
  - apply bool_decide_eq_false in Hid.
    destruct (bool_decide (_ ∈ tool_name <$> _)) eqn:Hname; cbn.
    + apply bool_decide_eq_true in Hname.
      split; [by eexists|]. repeat split; try done.
      * by apply tools_added_refl.
      * by left.
    + apply bool_decide_eq_false in Hname.
      split; [by eexists|]. repeat split; try done.
      * by eapply tools_added_one.
      * right. by rewrite fmap_app.
      * intros _. rewrite fmap_app, elem_of_app. right. cbn. by left.
Qed.

Lemma ids_fresh_step k n r r' :
  ids_fresh env k (S n) r ->
  (tool_id <$> reg_tools r' = tool_id <$> reg_tools r \/
   tool_id <$> reg_tools r' = (tool_id <$> reg_tools r) ++ [uuids env k]) ->
  ids_fresh env (S k) n r'.
Proof.
  intros [Hd Hf] Hids. cbn in Hd. apply NoDup_cons in Hd as [Hk Hd].
  split; [done|]. intros i Hi.
  assert (uuids env i ∉ tool_id <$> reg_tools r) as Hi' by (apply Hf; lia).
  destruct Hids as [->| ->]; [done|].
  rewrite elem_of_app. intros [?|Heq]; [done|].
  apply list_elem_of_singleton in Heq. apply Hk. rewrite <- Heq.
  apply list_elem_of_fmap. exists i. split; [done|].
  apply elem_of_seq. lia.
Qed.

Lemma insert_tools_skipping_adds names data r :
  Forall (fun row => row.1 ∈ names) data ->
  wp (insert_tools_skipping env data)
    (fun o r' =>
       (exists n, o = Ok n) /\
       agents (reg_world r') = agents (reg_world r) /\
       tools_added names r r' /\
       (ids_fresh env (ids_drawn (reg_world r)) (length data) r ->
        Forall (fun row => row.1 ∈ tool_name <$> reg_tools r') data)) r.
Proof.
  revert r. induction data as [|[name description] rest IH]; intros r Hd.
  - cbn. apply wp_ret. split; [by eexists|]. split; [done|].
    split; [by apply tools_added_refl|]. by constructor.
  - apply Forall_cons in Hd as [Hn Hd]. cbn in Hn.
    cbn [insert_tools_skipping]. apply wp_bind.
    eapply wp_mono; [by apply (insert_tool_or_skip_adds names)|].
    cbv beta. intros o r1 ([k ->] & Ha1 & Hi1 & Ht1 & Hids & Hname).
    apply wp_bind. eapply wp_mono; [by apply IH|].
    cbv beta. intros o r2 ([n ->] & Ha2 & Ht2 & Hnames).
    apply wp_ret. split; [by eexists|]. split; [congruence|].
    split; [by eapply tools_added_trans|].
    intros Hf. cbn [length] in Hf. constructor.
    + cbn. destruct Ht2 as (new & -> & _).
      rewrite fmap_app, elem_of_app. left. apply Hname.
      destruct Hf as [_ Hf]. apply Hf. lia.
    + apply Hnames. rewrite Hi1. by eapply ids_fresh_step.
Qed.

(** What [main] of services/orchestrator/seed.ts leaves behind. *)
Lemma seed_tools_batch_main_adds r :
  wp (seed_tools_batch_main env)
    (fun o r' =>
       agents (reg_world r') = agents (reg_world r) /\
       tools_added batch_names r r' /\
       (is_ok o = true <->
        store_down env (store_calls (reg_world r)) = false) /\
       (is_ok o = true ->
        ids_fresh env (ids_drawn (reg_world r)) 3 r ->
        batch_names ⊆ tool_name <$> reg_tools r')) r.
Proof.
  unfold seed_tools_batch_main, prisma_tool_createMany.
  apply wp_bind, wp_registry_call.
  destruct (store_down env (store_calls (reg_world r))) eqn:Hdown.
  - split; [done|]. split; [by apply tools_added_refl|]. by split.
  - eapply wp_mono.
    { apply (insert_tools_skipping_adds batch_names).
      repeat constructor; cbn; unfold batch_names;
        rewrite !elem_of_cons; auto. }
    cbv beta. intros o r' ([n ->] & Ha & Ht & Hnames).
    apply wp_ret. split; [done|]. split.
    { destruct Ht as (new & H & F & Hn & Hi). by exists new. }
    split; [done|]. intros _ Hf. specialize (Hnames Hf).
    rewrite !Forall_cons in Hnames. cbn in Hnames.
    destruct Hnames as (H1 & H2 & H3 & _).
    intros x Hx. unfold batch_names in Hx. rewrite !elem_of_cons in Hx.
    destruct Hx as [->|[->|[->|Hx]]]; try done.
    by apply elem_of_nil in Hx.
Qed.

End BatchSeed.

Lemma find_snoc {A} (f : A -> bool) l a :
  List.find f (l ++ [a]) =
    match List.find f l with
    | Some x => Some x
    | None => if f a then Some a else None
    end.
Proof.
  induction l as [|x l IH]; cbn; [done|]. by destruct (f x).
Qed.

Section AgentSeed.
Variable env : Env.

(** What the GitHub Keeper script leaves behind, by its exit code. *)
Lemma seed_agent_creates r :
  let code := fst (seed_agent env r) in
  let r' := snd (seed_agent env r) in
  let k := store_calls (reg_world r) in
  let i := uuids env (ids_drawn (reg_world r)) in
  reg_tools r' = reg_tools r /\
  ((code = 1%nat /\ agents (reg_world r') = agents (reg_world r)) \/
   (code = 0%nat /\
    exists t,
      tool_named "github" r = Some t /\
      (i ∉ agent_id <$> agents (reg_world r)) /\
      agents (reg_world r')
        = agents (reg_world r) ++ [keeper i (tool_id t)])) /\
  (code = 0%nat <->
   store_down env k = false /\ store_down env (S k) = false /\
   is_Some (tool_named "github" r) /\
   i ∉ agent_id <$> agents (reg_world r)).
Proof.
  cbv zeta.
  unfold seed_agent, prisma_tool_findFirst, registry_call, run_script,
    create_agent, registry_call, bind, on_world, randomUUID, insert_agent,
    ret, tool_named.
  cbn.
  destruct (store_down env (store_calls (reg_world r))) eqn:H1; cbn.
  { split; [done|]. split; [by left|]. split; [done|]. by intros [? _]. }
  destruct (List.find _ (reg_tools r)) as [t|] eqn:Ht; cbn.
  2: { split; [done|]. split; [by left|]. split; [done|].
       by intros (_ & _ & [t Hs] & _). }
  change (tool_named "github" r = Some t) in Ht.
  destruct (store_down env (S (store_calls (reg_world r)))) eqn:H2; cbn.
  { split; [done|]. split; [by left|]. split; [done|].
    by intros (_ & ? & _). }
  apply tool_named_Some in Ht as Hin. destruct Hin as [Hin Hname].
  rewrite bool_decide_eq_true_2.
  2: { intros x Hx. apply list_elem_of_singleton in Hx as ->.
       apply list_elem_of_fmap. by exists t. }
  case_bool_decide as Hid; cbn.
  { split; [done|]. split; [by left|]. split; [done|].
    by intros (_ & _ & _ & ?). }
  split; [done|]. split; [|by split].
  right. split; [done|]. by exists t.
Qed.

End AgentSeed.

Section Factory.
Variable env : Env.

Lemma connect_ids_strings items r :
  wp (connect_ids items)
    (fun o r' =>
       r' = r /\
       match o with
       | Ok ids => items = VStr <$> ids
       | Throw _ => forall ids, items <> VStr <$> ids
       end) r.
Proof.
  destruct r as [w tools].
  induction items as [|v rest IH]; cbn [connect_ids].
  - apply wp_ret. by split.
  - apply wp_bind, wp_on_world. cbn.
    destruct v; try (split; [done|]; by intros [|??] [=]).
    apply wp_ret, wp_bind. eapply wp_mono; [exact IH|].
    cbv beta. intros [ids|e] r' [-> H].
    + apply wp_ret. split; [done|]. by rewrite H.
    + split; [done|]. intros [|i ids] [=]. by eapply H.
Qed.

(** What [POST /api/agents] answers and leaves behind. *)
Lemma post_agents_creates body r :
  wp (post_agents env body)
    (fun o r' =>
       reg_tools r' = reg_tools r /\
       exists reply,
         o = Ok reply /\
         ((factory_status reply = 500 /\
           factory_body reply = ErrorBody "Failed to create agent" /\
           agents (reg_world r') = agents (reg_world r)) \/
          (factory_status reply = 201 /\
           exists a,
             factory_body reply = AgentBody a (tools_of a r') /\
             agents (reg_world r') = agents (reg_world r) ++ [a] /\
             (agent_id a ∉ agent_id <$> agents (reg_world r)) /\
             agent_tools a ⊆ tool_id <$> reg_tools r /\
             get_prop "name" body = Ok (VStr (agent_name a)) /\
             get_prop "role" body = Ok (VStr (agent_role a)) /\
             get_prop "goal" body = Ok (VStr (agent_goal a)) /\
             get_prop "systemPrompt" body
               = Ok (VStr (agent_systemPrompt a)) /\
             get_prop "tools" body
               = Ok (VArr (VStr <$> agent_tools a))))) r.
Proof.
  unfold post_agents, array_items.
  reg_exec.
  all: try (split; [done|]; eexists; split; [done|]; left; by repeat split).
  destruct a3; try done. injection Heqo4 as ->.
  wp_use connect_ids_strings as o r' [-> H].
  destruct o as [ids|e]; reg_exec.
  all: try (split; [done|]; eexists; split; [done|]; left; by repeat split).
  split; [done|]. eexists. split; [done|]. right. split; [done|].
  eexists. split; [done|]. cbn.
  apply bool_decide_eq_true in Heqb0. apply bool_decide_eq_false in Heqb1.
  repeat split; try done. by rewrite H.
Qed.

(** Every tool an agent is connected to exists, before and after
    [POST /api/agents] and the seed scripts. *)
Lemma tools_exist_step r r' :
  tools_exist r ->
  (exists new, reg_tools r' = reg_tools r ++ new) ->
  (agents (reg_world r') = agents (reg_world r) \/
   exists a,
     agents (reg_world r') = agents (reg_world r) ++ [a] /\
     agent_tools a ⊆ tool_id <$> reg_tools r) ->
  tools_exist r'.
Proof.
  intros He [new Ht] Ha a Hin.
  assert (agent_tools a ⊆ tool_id <$> reg_tools r) as Hsub.
  { destruct Ha as [Ha | (a' & Ha & Hsub)]; rewrite Ha in Hin.
    - by apply He.
    - apply elem_of_app in Hin as [Hin|Hin]; [by apply He|].
      by apply list_elem_of_singleton in Hin as ->. }
  intros x Hx. rewrite Ht, fmap_app, elem_of_app. left. by apply Hsub.
Qed.

End Factory.


Lemma run_script_runs main r :
  snd (run_script main r) = snd (main r) /\
  (fst (run_script main r) = 0%nat <-> is_ok (fst (main r)) = true).
Proof. unfold run_script. by destruct (main r) as [[[]|e] r']. Qed.

(** X9. [POST /api/agents] always answers, with 201 or with 500, and never
    touches the Tool table.  On 500 the body is the error text and no agent
    was created.  On 201 exactly one agent was added, after the others and
    under an id not in use, its [name], [role], [goal] and [systemPrompt]
    are the strings of the request, its tools are the ids the request
    lists, every one of them the id of an existing tool, and the reply
    carries that agent with its tools. *)
Theorem post_agents_answers env body r :
  let o := fst (post_agents env body r) in
  let r' := snd (post_agents env body r) in
  reg_tools r' = reg_tools r /\
  exists reply,
    o = Ok reply /\
    ((factory_status reply = 500 /\
      factory_body reply = ErrorBody "Failed to create agent" /\
      agents (reg_world r') = agents (reg_world r)) \/
     (factory_status reply = 201 /\
      exists a,
        factory_body reply = AgentBody a (tools_of a r') /\
        agents (reg_world r') = agents (reg_world r) ++ [a] /\
        (agent_id a ∉ agent_id <$> agents (reg_world r)) /\
        agent_tools a ⊆ tool_id <$> reg_tools r /\
        get_prop "name" body = Ok (VStr (agent_name a)) /\
        get_prop "role" body = Ok (VStr (agent_role a)) /\
        get_prop "goal" body = Ok (VStr (agent_goal a)) /\
        get_prop "systemPrompt" body = Ok (VStr (agent_systemPrompt a)) /\
        get_prop "tools" body = Ok (VArr (VStr <$> agent_tools a)))).
Proof. exact (post_agents_creates env body r). Qed.

(** X10. [POST /api/agents] answers 500 and creates no agent when the
    request has no [tools] array (the key is missing, or holds something
    else), when the array names a tool that does not exist, or when one of
    [name], [role], [goal], [systemPrompt] is not a string. *)
Theorem post_agents_refuses env body r :
  (forall items, get_prop "tools" body <> Ok (VArr items)) \/
  (exists items i,
     get_prop "tools" body = Ok (VArr items) /\ VStr i ∈ items /\
     i ∉ tool_id <$> reg_tools r) \/
  (exists k,
     k ∈ ["name"; "role"; "goal"; "systemPrompt"] /\
     forall s, get_prop k body <> Ok (VStr s)) ->
  exists reply,
    fst (post_agents env body r) = Ok reply /\
    factory_status reply = 500 /\
    agents (reg_world (snd (post_agents env body r)))
      = agents (reg_world r).
Proof.
  intros H.
  destruct (post_agents_creates env body r) as (_ & reply & Ho & Hr).
  exists reply. split; [done|].
  destruct Hr as [(Hs & _ & Ha)|(_ & a & _ & _ & _ & Hsub & Hn & Hro & Hg
                                 & Hp & Ht)]; [done|].
  exfalso. destruct H as [H|[(items & i & Hi & Hin & Hnot)|(k & Hk & H)]].
  - by eapply H.
  - rewrite Ht in Hi. injection Hi as <-. apply Hnot, Hsub.
    apply list_elem_of_fmap in Hin as (j & [= ->] & Hj). done.
  - rewrite !elem_of_cons in Hk.
    destruct Hk as [->|[->|[->|[->|Hk]]]]; try (by eapply H).
    by apply elem_of_nil in Hk.
Qed.

Lemma post_agents_refuses_witness :
  let env := Sample.env Sample.store_up Sample.topic_up in
  let body := VObj [("name", VStr "Slack Keeper"); ("role", VStr "slack")] in
  exists reply,
    fst (post_agents env body sample_registry) = Ok reply /\
    factory_status reply = 500 /\
    agents (reg_world (snd (post_agents env body sample_registry)))
      = agents (reg_world sample_registry).
Proof.
  intros env body. apply (post_agents_refuses env body sample_registry).
  left. intros items. vm_compute. discriminate.
Defined.



(** X12. Whatever happens while it runs, prisma/seed.ts only adds tools:
    the tools that were stored stay, unchanged and in front; a tool it adds
    bears one of its three names, and none that was in use; names and ids
    that were unique stay unique; it touches no agent.  When it exits with
    code 0 its three tools exist. *)
Theorem seed_tools_adds_missing_tools env r :
  let code := fst (seed_tools env r) in
  let r' := snd (seed_tools env r) in
  tools_added seed_names r r' /\
  agents (reg_world r') = agents (reg_world r) /\
  (code = 0%nat -> seed_names ⊆ tool_name <$> reg_tools r').
Proof.
  cbv zeta. unfold seed_tools.
  destruct (run_script_runs (seed_tools_main env) r) as [-> Hc].
  destruct (seed_tools_main_adds env r) as (Ha & Ht & Hn).
  split; [done|]. split; [done|]. intros H. by apply Hn, Hc.
Qed.

(** X13. prisma/seed.ts can be run again: once it has exited with code 0,
    another run, whether it succeeds or fails, leaves the Tool table as it
    is. *)
Theorem seed_tools_twice env r :
  fst (seed_tools env r) = 0%nat ->
  reg_tools (snd (seed_tools env (snd (seed_tools env r))))
    = reg_tools (snd (seed_tools env r)).
Proof.
  intros H. unfold seed_tools in *.
  destruct (run_script_runs (seed_tools_main env) r) as [E Hc].
  destruct (seed_tools_main_adds env r) as (_ & _ & Hn).
  apply Hc in H. specialize (Hn H). rewrite <- E in Hn.
  set (r1 := snd (run_script (seed_tools_main env) r)) in *.
  destruct (run_script_runs (seed_tools_main env) r1) as [-> _].
  destruct (seed_tools_main_adds env r1) as (_ & Ht & _).
  by eapply tools_added_all_present.
Qed.

Lemma seed_tools_twice_witness :
  let env := Sample.env Sample.store_up Sample.topic_up in
  length (reg_tools (snd (seed_tools env empty_registry))) = 3%nat /\
  reg_tools (snd (seed_tools env (snd (seed_tools env empty_registry))))
    = reg_tools (snd (seed_tools env empty_registry)).
Proof.
  intros env. split; [vm_compute; reflexivity|].
  apply (seed_tools_twice env empty_registry). vm_compute. reflexivity.
Defined.

(** X14. services/orchestrator/seed.ts makes one call to the store and
    exits with code 0 exactly when the store takes that call: a duplicate
    is skipped, never an error.  It only adds tools, under its three names,
    none under a name that was in use, and keeps names and ids unique; once
    its three names are in use it changes nothing.  When it exits with
    code 0, and the ids the store generates are new, its three tools
    exist. *)
Theorem seed_tools_batch_skips_duplicates env r :
  let code := fst (seed_tools_batch env r) in
  let r' := snd (seed_tools_batch env r) in
  tools_added batch_names r r' /\
  agents (reg_world r') = agents (reg_world r) /\
  (code = 0%nat <-> store_down env (store_calls (reg_world r)) = false) /\
  (batch_names ⊆ tool_name <$> reg_tools r -> reg_tools r' = reg_tools r) /\
  (code = 0%nat ->
   ids_fresh env (ids_drawn (reg_world r)) 3 r ->
   batch_names ⊆ tool_name <$> reg_tools r').
Proof.
  cbv zeta. unfold seed_tools_batch.
  destruct (run_script_runs (seed_tools_batch_main env) r) as [-> Hc].
  destruct (seed_tools_batch_main_adds env r) as (Ha & Ht & Hup & Hn).
  split; [done|]. split; [done|]. split; [by rewrite Hc|].
  split; [by apply tools_added_all_present|].
  intros H. by apply Hn, Hc.
Qed.

(** X15. The GitHub Keeper script exits with code 0 exactly when both of
    its calls to the store are taken, a tool named [github] exists and the
    generated id is new.  It then has added one agent, after the others:
    the GitHub Keeper, of role [github], connected to the first tool named
    [github].  In every other case it exits with code 1 and has created no
    agent.  It never touches the Tool table. *)
Theorem seed_agent_exit_code env r :
  let code := fst (seed_agent env r) in
  let r' := snd (seed_agent env r) in
  let k := store_calls (reg_world r) in
  let i := uuids env (ids_drawn (reg_world r)) in
  reg_tools r' = reg_tools r /\
  ((code = 1%nat /\ agents (reg_world r') = agents (reg_world r)) \/
   (code = 0%nat /\
    exists t,
      tool_named "github" r = Some t /\
      (i ∉ agent_id <$> agents (reg_world r)) /\
      agents (reg_world r')
        = agents (reg_world r) ++ [keeper i (tool_id t)])) /\
  (code = 0%nat <->
   store_down env k = false /\ store_down env (S k) = false /\
   is_Some (tool_named "github" r) /\
   i ∉ agent_id <$> agents (reg_world r)).
Proof. exact (seed_agent_creates env r). Qed.




(** X17. prisma/seed.ts does not provide what the GitHub Keeper script
    looks for: from a store without a tool named [github], that script
    still exits with code 1 after prisma/seed.ts has run, however that run
    went, and no agent is created. *)
Theorem seed_tools_leaves_keeper_without_tool env r :
  tool_named "github" r = None ->
  let r1 := snd (seed_tools env r) in
  fst (seed_agent env r1) = 1%nat /\
  agents (reg_world (snd (seed_agent env r1))) = agents (reg_world r).
Proof.
  intros Hnone r1. subst r1. unfold seed_tools.
  destruct (run_script_runs (seed_tools_main env) r) as [-> _].
  destruct (seed_tools_main_adds env r) as (Ha & (new & Ht & F & _) & _).
  set (r1 := snd (seed_tools_main env r)) in *.
  assert (tool_named "github" r1 = None) as Hnone1.
  { apply tool_named_None. rewrite Ht, fmap_app, elem_of_app.
    intros [Hin|Hin]; [by apply tool_named_None in Hnone|].
    apply list_elem_of_fmap in Hin as (t & Hname & Hin).
    rewrite Forall_forall in F. destruct (F t Hin) as [Hs _].
    rewrite <- Hname in Hs. unfold seed_names in Hs.
    rewrite !elem_of_cons in Hs.
    destruct Hs as [?|[?|[?|Hs]]]; try done. by apply elem_of_nil in Hs. }
  destruct (seed_agent_creates env r1) as (_ & Hcases & Hiff).
  destruct Hcases as [[Hc Hag]|(Hc & _)].
  - split; [done|]. by rewrite Hag.
  - apply Hiff in Hc as (_ & _ & [t Hsome] & _). congruence.
Qed.

Lemma seed_tools_leaves_keeper_without_tool_witness :
  let env := Sample.env Sample.store_up Sample.topic_up in
  let r1 := snd (seed_tools env empty_registry) in
  fst (seed_tools env empty_registry) = 0%nat /\
  fst (seed_agent env r1) = 1%nat /\
  agents (reg_world (snd (seed_agent env r1)))
    = agents (reg_world empty_registry).
Proof.
  intros env. split; [vm_compute; reflexivity|].
  apply (seed_tools_leaves_keeper_without_tool env empty_registry).
  vm_compute. reflexivity.
Defined.

(** X18. After services/orchestrator/seed.ts has exited with code 0, with
    ids that are new, the GitHub Keeper script does not fail for want of
    its tool: if the store takes its two calls and the generated id is
    new, it exits with code 0, and where no agent had the role [github]
    the lookup of the worker for that role now returns the GitHub Keeper,
    connected to the tool named [github]. *)
Theorem batch_seed_then_keeper env r :
  let r1 := snd (seed_tools_batch env r) in
  let r2 := snd (seed_agent env r1) in
  let k := store_calls (reg_world r1) in
  let i := uuids env (ids_drawn (reg_world r1)) in
  fst (seed_tools_batch env r) = 0%nat ->
  ids_fresh env (ids_drawn (reg_world r)) 3 r ->
  store_down env k = false ->
  store_down env (S k) = false ->
  i ∉ agent_id <$> agents (reg_world r) ->
  agent_for "github" (reg_world r) = None ->
  fst (seed_agent env r1) = 0%nat /\
  exists t,
    tool_named "github" r1 = Some t /\
    agent_for "github" (reg_world r2) = Some (keeper i (tool_id t)).
Proof.
  intros r1 r2 k i Hcode Hfresh Hk Hk' Hi Hnone. subst r1 r2 k i.
  unfold seed_tools_batch in *.
  destruct (run_script_runs (seed_tools_batch_main env) r) as [E Hc].
  rewrite E in *.
  destruct (seed_tools_batch_main_adds env r) as (Ha & _ & _ & Hn).
  apply Hc in Hcode. specialize (Hn Hcode Hfresh).
  set (r1 := snd (seed_tools_batch_main env r)) in *.
  assert (is_Some (tool_named "github" r1)) as Hsome.
  { destruct (tool_named "github" r1) eqn:Ht; [by eexists|].
    apply tool_named_None in Ht. destruct Ht. apply Hn.
    unfold batch_names. rewrite !elem_of_cons. auto. }
  rewrite <- Ha in Hi.
  destruct (seed_agent_creates env r1) as (_ & Hcases & Hiff).
  assert (fst (seed_agent env r1) = 0%nat) as H0 by (by apply Hiff).
  split; [done|].
  destruct Hcases as [[Hc1 _]|(_ & t & Ht & _ & Hag)]; [congruence|].
  exists t. split; [done|].
  unfold agent_for in *. rewrite Hag, find_snoc, Ha, Hnone. done.
Qed.

Lemma batch_seed_then_keeper_witness :
  let env := Sample.env Sample.store_up Sample.topic_up in
  let r1 := snd (seed_tools_batch env empty_registry) in
  let r2 := snd (seed_agent env r1) in
  fst (seed_agent env r1) = 0%nat /\
  exists t,
    tool_named "github" r1 = Some t /\
    agent_for "github" (reg_world r2) = Some (keeper "uuid-3" (tool_id t)).
Proof.
  intros env.
  apply (batch_seed_then_keeper env empty_registry).
  - vm_compute. reflexivity.
  - split.
    + apply (bool_decide_unpack _). vm_compute. exact I.
    + intros i _. vm_compute. apply not_elem_of_nil.
  - reflexivity.
  - reflexivity.
  - vm_compute. apply not_elem_of_nil.
  - reflexivity.
Defined.

(** X19. Every agent stays connected to tools that exist: if that holds
    of the store, it holds after [POST /api/agents], whatever the request
    and the answer, and after each of the three seed scripts, however it
    ended. *)
Theorem tools_exist_is_kept env body r :
  tools_exist r ->
  tools_exist (snd (post_agents env body r)) /\
  tools_exist (snd (seed_tools env r)) /\
  tools_exist (snd (seed_tools_batch env r)) /\
  tools_exist (snd (seed_agent env r)).
Proof.
  intros He. repeat split.
  - destruct (post_agents_creates env body r) as (Ht & reply & _ & Hr).
    apply (tools_exist_step r); [done|exists []; by rewrite app_nil_r|].
    destruct Hr as [(_ & _ & Ha)|(_ & a & _ & Ha & _ & Hsub & _)];
      [by left | right; by exists a].
  - unfold seed_tools.
    destruct (run_script_runs (seed_tools_main env) r) as [-> _].
    destruct (seed_tools_main_adds env r) as (Ha & (new & Ht & _) & _).
    apply (tools_exist_step r); [done|by exists new|by left].
  - unfold seed_tools_batch.
    destruct (run_script_runs (seed_tools_batch_main env) r) as [-> _].
    destruct (seed_tools_batch_main_adds env r)
      as (Ha & (new & Ht & _) & _).
    apply (tools_exist_step r); [done|by exists new|by left].
  - destruct (seed_agent_creates env r) as (Ht & Hcases & _).
    apply (tools_exist_step r); [done|exists []; by rewrite app_nil_r|].
    destruct Hcases as [[_ Ha]|(_ & t & Hnamed & _ & Ha)]; [by left|].
    right. eexists. split; [exact Ha|]. cbn.
    apply tool_named_Some in Hnamed as [Hin _].
    intros x Hx. apply list_elem_of_singleton in Hx as ->.
    apply list_elem_of_fmap. by exists t.
Qed.

Lemma tools_exist_is_kept_witness :
  let env := Sample.env Sample.store_up Sample.topic_up in
  let body := sample_agent_body "slack" in
  tools_exist (snd (post_agents env body sample_registry)) /\
  tools_exist (snd (seed_tools env sample_registry)) /\
  tools_exist (snd (seed_tools_batch env sample_registry)) /\
  tools_exist (snd (seed_agent env sample_registry)).
Proof.
  intros env body.
  apply (tools_exist_is_kept env body sample_registry).
  intros a Ha. apply list_elem_of_singleton in Ha as ->.
  intros x Hx. exact Hx.
Defined.

